(** * mocha-better-spec-reporter: the failure-report pipeline of [index.js]

    A shallow embedding of the functions that print the "Failed tests"
    section ([writeFailures], [writeStackLine], [writeFilePosition],
    [writeDiff], [linesContainSourceMap], ...) and the properties of the
    specification that concern them.

    Conventions of the embedding:
    - JavaScript strings are [string] (8-bit characters); [undefined] and
      [null] are written out with [option];
    - objects used as dictionaries ([filesCache], [sourceMapCache]) are
      [gmap string _];
    - the reporter object ([this]) is an explicit state, threaded through a
      state-and-exception monad; what has been written to the stream stays
      written when an exception is raised;
    - the packages the file [require]s are a record of functions, [World].

    Limits of the embedding:
    - the white space of [trim] is the white space of the 8-bit characters
      below 128: the other spaces of Unicode are not told apart from
      letters;
    - a dictionary holds the keys that the code has stored: the properties
      that every JavaScript object inherits ([constructor], [toString],
      ...) are no file names here;
    - [color] is applied to the names of the styles of [./color], and
      [originalPositionFor] to positions of frames with a column: what the
      two do on an [undefined] name or column is not part of [World]. *)

From Stdlib Require Import ZArith Ascii.
From stdpp Require Import gmap strings list pretty.

Local Open Scope Z_scope.

(** ** String primitives of JavaScript used by [index.js] *)

Module Js.

Definition LF : string := String "010"%char "".

Definition length (s : string) : nat := String.length s.

Fixpoint drop (n : nat) (s : string) : string :=
  match n, s with
  | O, _ => s
  | S n', String _ s' => drop n' s'
  | S _, EmptyString => EmptyString
  end.

Fixpoint take (n : nat) (s : string) : string :=
  match n, s with
  | O, _ => EmptyString
  | S n', String c s' => String c (take n' s')
  | S _, EmptyString => EmptyString
  end.

(** [s.substr(start)]: a negative [start] counts from the end. *)
Definition substr (s : string) (start : Z) : string :=
  if start <? 0
  then drop (Z.to_nat (Z.max (Z.of_nat (length s) + start) 0)) s
  else drop (Z.to_nat start) s.

(** [s.substr(start, len)] *)
Definition substr2 (s : string) (start len : Z) : string :=
  take (Z.to_nat len) (substr s start).

(** [s.substr(0, p.length) === p] *)
Definition startsWith (p s : string) : bool :=
  bool_decide (substr2 s 0 (Z.of_nat (length p)) = p).

(** [s.indexOf(needle)], [-1] when [needle] does not occur. *)
Fixpoint indexOf_from (needle s : string) (i : Z) : Z :=
  if startsWith needle s then i
  else match s with
       | EmptyString => -1
       | String _ s' => indexOf_from needle s' (i + 1)
       end.

Definition indexOf (s needle : string) : Z := indexOf_from needle s 0.

Definition includes (s needle : string) : bool := 0 <=? indexOf s needle.

(** [s.split('\n')] *)
Fixpoint split_go (sep : ascii) (cur : string) (s : string) : list string :=
  match s with
  | EmptyString => [String.rev cur]
  | String c s' =>
      if bool_decide (c = sep) then String.rev cur :: split_go sep EmptyString s'
      else split_go sep (String c cur) s'
  end.

Definition split_lines (s : string) : list string :=
  split_go "010"%char EmptyString s.

(** [s.trim()]: white space is tab, line feed, vertical tab, form feed,
    carriage return and space (the white space of the 8-bit range). *)
Fixpoint trimStart (s : string) : string :=
  match s with
  | String c s' => if Ascii.is_space c then trimStart s' else s
  | EmptyString => EmptyString
  end.

Definition trimEnd (s : string) : string :=
  String.rev (trimStart (String.rev s)).

Definition trim (s : string) : string := trimEnd (trimStart s).

(** [parts.join(sep)] *)
Fixpoint join (sep : string) (parts : list string) : string :=
  match parts with
  | [] => ""
  | [p] => p
  | p :: ps => p +:+ sep +:+ join sep ps
  end.

(** Truthiness of a string that may be [undefined] or [null]. *)
Definition truthy (o : option string) : bool :=
  match o with
  | Some s => negb (bool_decide (s = ""))
  | None => false
  end.

(** [s.replace(/c/g, by)] for a one-character pattern. *)
Fixpoint replaceAll (c : ascii) (by_ : string) (s : string) : string :=
  match s with
  | EmptyString => EmptyString
  | String d s' =>
      if bool_decide (d = c) then by_ +:+ replaceAll c by_ s'
      else String d (replaceAll c by_ s')
  end.

End Js.

(** ** Source-map marker detection (index.js, lines 453-465) *)

Definition sourceMapComment : string := "//# sourceMappingURL=".

(** The [while(l--)] loop, by recursion on the counter [l]. [lines[l]] is
    always in range, since [l] starts at [lines.length]. The function result
    [None] is JavaScript's [undefined] (the loop ran out). *)
Fixpoint linesContainSourceMap_loop (lines : list string) (l : nat) : option string :=
  match l with
  | O => None
  | S l' =>
      let line := Js.trim (lines !!! l') in
      if negb (bool_decide (line = "")) then
        if bool_decide (Js.substr2 line 0 (Z.of_nat (Js.length sourceMapComment)) = sourceMapComment)
        then Some (Js.substr line (Z.of_nat (Js.length sourceMapComment)))
        else linesContainSourceMap_loop lines l'
      else linesContainSourceMap_loop lines l'
  end.

Definition linesContainSourceMap (lines : list string) : option string :=
  linesContainSourceMap_loop lines (List.length lines).


(** ** Data of the failure report *)

(** [err.actual] and [err.expected] are arbitrary JavaScript values; objects
    and functions are opaque references, and numbers are integers. *)
Inductive Value :=
| VUndefined
| VNull
| VBoolean (b : bool)
| VNumber (z : Z)
| VString (s : string)
| VObject (ref : nat)
| VFunction (ref : nat).

Definition typeof (v : Value) : string :=
  match v with
  | VUndefined => "undefined"
  | VNull | VObject _ => "object"
  | VBoolean _ => "boolean"
  | VNumber _ => "number"
  | VString _ => "string"
  | VFunction _ => "function"
  end.

(** The error object of a failed test. *)
Record Err := {
  message : string;
  stack : string;
  actual : Value;
  expected : Value;
}.

(** A failed test, as [writeFailures] uses it. *)
Record Test := {
  titlePath : list string;
  timedOut : bool;
  err : Err;
}.

(** A call site of the parsed stack: [getFileName()], [getLineNumber()] and
    [getColumnNumber()], each of which may be [null]. *)
Record CallSite := {
  getFileName : option string;
  getLineNumber : option Z;
  getColumnNumber : option Z;
}.

(** [{line: ..., column: ...}]; [column] may be missing. *)
Record Pos := {
  line : Z;
  column : option Z;
}.

(** A source-map consumer: [originalPositionFor] answers [None] for the
    all-[null] position, and [(source, line, column)] otherwise;
    [sourceContentFor(source, true)] answers [None] for [null]. *)
Record SourceMapConsumer := {
  originalPositionFor : Pos -> option (string * Z * Z);
  sourceContentFor : string -> option string;
}.

(** The result of [getType] (package should-type). *)
Record TypeTag := {
  tag_type : string;
  tag_cls : option string;
  tag_sub : option string;
}.

(** [this.options], as far as the failure report reads it. [stackExclude] is
    [None] when the option is not set. *)
Record Options := {
  showSourceMapFiles : bool;
  showJavascriptFiles : bool;
  showFailsInBackOrder : bool;
  hideNodeModulesStack : bool;
  hideTestingLibraryDOM : bool;
  stackExclude : option string;
}.

(** What [index.js] calls and does not define: the required packages and
    the modules [./config], [./color]. A [None] result of a function that can
    throw stands for the exception. *)
Record World := {
  readFileSync : string -> option string;
  stacktrace_parse : Err -> list CallSite;
  minimatch : string -> string -> bool;
  getType : Value -> TypeTag;
  format : Value -> string;
  createPatch : string -> string -> string -> string;
  color : string -> string -> string;
  config_indentation : nat;
  dataUriToBuffer : string -> option string;
  newSourceMapConsumer : string -> option SourceMapConsumer;
  path_dirname : string -> string;
  path_resolve : string -> string -> string;
}.

(** ** The reporter object

    [this]: options, the files of the run, the indentation counter and the
    two caches, extended with three logs that the code does not keep but its
    effects define: [stream] is the sequence of [config.stream.write] calls,
    [reads] the sequence of [fs.readFileSync] calls (by path) and [parses]
    the sequence of [new SourceMapConsumer] calls (by the file whose map is
    parsed). In the failure report the indentation counter only takes
    natural values, and never goes below its value on entry. *)
Record Reporter := {
  options : Options;
  files : list string;
  indentation : nat;
  filesCache : gmap string (list string);
  sourceMapCache : gmap string (option SourceMapConsumer);
  stream : list string;
  reads : list string;
  parses : list string;
}.

Definition set_indentation (n : nat) (r : Reporter) : Reporter :=
  {| options := options r; files := files r; indentation := n;
     filesCache := filesCache r; sourceMapCache := sourceMapCache r;
     stream := stream r; reads := reads r; parses := parses r |}.

Definition set_filesCache (c : gmap string (list string)) (r : Reporter) : Reporter :=
  {| options := options r; files := files r; indentation := indentation r;
     filesCache := c; sourceMapCache := sourceMapCache r;
     stream := stream r; reads := reads r; parses := parses r |}.

Definition set_sourceMapCache (c : gmap string (option SourceMapConsumer)) (r : Reporter) : Reporter :=
  {| options := options r; files := files r; indentation := indentation r;
     filesCache := filesCache r; sourceMapCache := c;
     stream := stream r; reads := reads r; parses := parses r |}.

Definition set_stream (o : list string) (r : Reporter) : Reporter :=
  {| options := options r; files := files r; indentation := indentation r;
     filesCache := filesCache r; sourceMapCache := sourceMapCache r;
     stream := o; reads := reads r; parses := parses r |}.

Definition set_reads (l : list string) (r : Reporter) : Reporter :=
  {| options := options r; files := files r; indentation := indentation r;
     filesCache := filesCache r; sourceMapCache := sourceMapCache r;
     stream := stream r; reads := l; parses := parses r |}.

Definition set_parses (l : list string) (r : Reporter) : Reporter :=
  {| options := options r; files := files r; indentation := indentation r;
     filesCache := filesCache r; sourceMapCache := sourceMapCache r;
     stream := stream r; reads := reads r; parses := l |}.

(** ** Computations on the reporter that may throw *)

Inductive Exn :=
| TypeError (what : string)
| LibraryError (from : string).

Inductive Outcome (A : Type) :=
| Done (a : A)
| Thrown (e : Exn).
Arguments Done {A} a.
Arguments Thrown {A} e.

Definition Run (A : Type) : Type := Reporter -> Outcome A * Reporter.

Definition ret {A} (a : A) : Run A := fun r => (Done a, r).

Definition throw {A} (e : Exn) : Run A := fun r => (Thrown e, r).

Definition bind {A B} (m : Run A) (k : A -> Run B) : Run B :=
  fun r =>
    match m r with
    | (Done a, r') => k a r'
    | (Thrown e, r') => (Thrown e, r')
    end.

Definition gets {A} (f : Reporter -> A) : Run A := fun r => (Done (f r), r).

Definition modify (f : Reporter -> Reporter) : Run unit := fun r => (Done tt, f r).

Declare Scope run_scope.
Delimit Scope run_scope with run.
Notation "x <- m ;; k" := (bind m (fun x => k))
  (at level 100, m at next level, right associativity) : run_scope.
Notation "m ;; k" := (bind m (fun _ => k))
  (at level 100, right associativity) : run_scope.
Local Open Scope run_scope.

Definition when (b : bool) (m : Run unit) : Run unit :=
  if b then m else ret tt.

(** [xs.forEach(f)] *)
Fixpoint forEach {A} (f : A -> Run unit) (xs : list A) : Run unit :=
  match xs with
  | [] => ret tt
  | x :: xs' => f x ;; forEach f xs'
  end.

(** ** Formatting helpers *)

Fixpoint spaces (n : nat) : string :=
  match n with
  | O => ""
  | S n' => String " "%char (spaces n')
  end.

(** Modelled from the spec: the module [./pad] is not part of the sources at
    hand. The spec (4.3) has each rendered line "prefixed with a
    right-aligned line number, padded to the width of the longest line
    number shown in that window": [pad str len] puts spaces in front of
    [str] up to the width [len]. *)
Definition pad (str : string) (len : nat) : string :=
  spaces (len - Js.length str) +:+ str.

(** [util.format(...arguments)] on strings: [%s] and [%d] take the next
    argument (a number is passed in decimal), [%%] is a percent sign, and
    arguments left over are appended after a space each. A format with no
    argument is returned as it is, and no argument at all gives the empty
    string. The formats of [index.js] use no other directive. *)
Fixpoint format_go (fmt : string) (args : list string) : string :=
  match fmt with
  | EmptyString => String.concat "" (List.map (fun a => " " +:+ a) args)
  | String c fmt' =>
      if bool_decide (c = "%"%char) then
        match fmt' with
        | String d fmt'' =>
            if bool_decide (d = "s"%char) || bool_decide (d = "d"%char) then
              match args with
              | a :: args' => a +:+ format_go fmt'' args'
              | [] => String c (String d (format_go fmt'' []))
              end
            else if bool_decide (d = "%"%char) then String "%"%char (format_go fmt'' args)
            else String c (format_go fmt' args)
        | EmptyString => String c (format_go fmt' args)
        end
      else String c (format_go fmt' args)
  end.

Definition util_format (arguments : list string) : string :=
  match arguments with
  | [] => ""
  | [fmt] => fmt
  | fmt :: args => format_go fmt args
  end.

(** [escapeInvisibles] (index.js, lines 608-613) *)
Definition escapeInvisibles (l : string) : string :=
  Js.replaceAll "010"%char ("<LF>" +:+ Js.LF)
    (Js.replaceAll "013"%char "<CR>"
       (Js.replaceAll "009"%char "<TAB>" l)).

(** [lines[i]] on an array: [undefined] outside of it. *)
Definition arrayGet (lines : list string) (i : Z) : option string :=
  if i <? 0 then None else lines !! Z.to_nat i.

(** [line[i]], printed: a missing character prints as [undefined]. *)
Definition charAt (l : string) (i : Z) : string :=
  if i <? 0 then "undefined"
  else match Js.take 1 (Js.drop (Z.to_nat i) l) with
       | EmptyString => "undefined"
       | c => c
       end.

(** [Object.keys] of an object whose keys are integers written in
    increasing order: the non-negative ones (array indices) come first, in
    increasing order, then the negative ones in the order of their
    creation. *)
Definition objectEntries {V} (written : list (Z * V)) : list (Z * V) :=
  List.filter (fun kv => 0 <=? fst kv) written ++
  List.filter (fun kv => fst kv <? 0) written.

(** [obj[n]]; a value [undefined] and a missing key read the same. *)
Fixpoint objectGet (obj : list (Z * option string)) (n : Z) : option string :=
  match obj with
  | [] => None
  | (k, v) :: obj' => if bool_decide (k = n) then v else objectGet obj' n
  end.

(** [xs.reduce(f)] without an initial value: a [TypeError] on the empty
    array. *)
Definition reduce_max (xs : list nat) : Run nat :=
  match xs with
  | [] => throw (TypeError "Reduce of empty array with no initial value")
  | x :: xs' => ret (List.fold_left Nat.max xs' x)
  end.

(** A number that is [undefined], [null] or [0] is falsy. *)
Definition truthyZ (o : option Z) : bool :=
  match o with
  | Some z => negb (z =? 0)
  | None => false
  end.

(** ** The failure report *)

Section Pipeline.

Context (w : World).

(** [indent] (index.js, lines 307-309): [new Array(n).join(' ')] has
    [n - 1] spaces. *)
Definition indent (indentation : nat) : string :=
  spaces (Nat.pred (indentation * config_indentation w)).

(** [writeLine] (index.js, lines 311-313); the stream records the text
    written, the final line feed included. *)
Definition writeLine (arguments : list string) : Run unit :=
  modify (fun r =>
    set_stream (stream r ++ [indent (indentation r) +:+ util_format arguments +:+ Js.LF]) r).

Definition indentation_incr : Run unit :=
  modify (fun r => set_indentation (S (indentation r)) r).

Definition indentation_decr : Run unit :=
  modify (fun r => set_indentation (Nat.pred (indentation r)) r).

(** [printErrorMessage] (index.js, lines 355-364) *)
Definition printErrorMessage (message : string) : Run unit :=
  opts <- gets options ;;
  if hideTestingLibraryDOM opts && Js.includes message "Unable to find an element" then
    writeLine [color w "error message" "%s"; hd "" (Js.split_lines message)]
  else
    forEach (fun messageLine => writeLine [color w "error message" "%s"; messageLine])
            (Js.split_lines message).

(** [writeFilePosition] (index.js, lines 546-576); [lines] is the object
    built by [_writeStackFilePosition], in the order of [Object.keys]. *)
Definition writeFilePosition_row (lines : list (Z * option string)) (filePos : Pos)
    (longestLength : nat) (ln : Z) : Run unit :=
  let l := objectGet lines ln in
  match l with
  | Some l =>
      if negb (bool_decide (l = "")) then
        if bool_decide (ln + 1 = line filePos) then
          let l :=
            if truthyZ (column filePos) then
              let col := default 0 (column filePos) in
              let lineBefore := Js.substr2 l 0 (col - 1) in
              let lineAfter := Js.substr l col in
              lineBefore +:+ color w "error line pos" (charAt l (col - 1)) +:+ lineAfter
            else l in
          writeLine ["%s | %s"; color w "error line pos" (pad (pretty (ln + 1)) longestLength); l]
        else
          writeLine ["%s | %s"; pad (pretty (ln + 1)) longestLength; l]
      else ret tt
  | None => ret tt
  end.

Definition writeFilePosition (lines : list (Z * option string)) (filePos : Pos) : Run unit :=
  let linenums := List.map fst lines in
  longestLength <-
    reduce_max
      (List.map (fun n => Js.length (pretty (n + 1)))
         (List.filter (fun n => Js.truthy (objectGet lines n)) linenums)) ;;
  forEach (writeFilePosition_row lines filePos longestLength) linenums.

(** [_writeStackFilePosition] (index.js, lines 483-492) *)
Definition _writeStackFilePosition (lines : list string) (pos : Pos) : Run unit :=
  let ln := objectEntries
    [ (line pos - 2, arrayGet lines (line pos - 2));
      (line pos - 1, arrayGet lines (line pos - 1));
      (line pos, arrayGet lines (line pos)) ] in
  writeLine [] ;;
  writeFilePosition ln pos ;;
  writeLine [].

(** [parseInlineSourceMap] (index.js, lines 467-472): [None] is the
    [undefined] of a marker that is no data URI; an exception of
    [dataUriToBuffer] or of the consumer's constructor is not caught. *)
Definition parseInlineSourceMap (fileName sm : string) : Run (option SourceMapConsumer) :=
  if bool_decide (Js.substr2 sm 0 5 = "data:") then
    match dataUriToBuffer w sm with
    | None => throw (LibraryError "data-uri-to-buffer")
    | Some buf =>
        modify (fun r => set_parses (parses r ++ [fileName]) r) ;;
        match newSourceMapConsumer w buf with
        | None => throw (LibraryError "source-map")
        | Some smc => ret (Some smc)
        end
    end
  else ret None.

(** [parseExternalSourceMap] (index.js, lines 474-481): [None] is the
    [null] of the [catch] branch. *)
Definition parseExternalSourceMap (filePath sm : string) : Run (option SourceMapConsumer) :=
  let smPath := path_resolve w (path_dirname w filePath) sm in
  modify (fun r => set_reads (reads r ++ [smPath]) r) ;;
  match readFileSync w smPath with
  | None => ret None
  | Some text =>
      modify (fun r => set_parses (parses r ++ [filePath]) r) ;;
      match newSourceMapConsumer w text with
      | None => ret None
      | Some smc => ret (Some smc)
      end
  end.

(** The original-source part of [writeStackLine] (index.js, lines
    524-540), for a consumer [smc]. *)
Definition writeOriginalPosition (smc : SourceMapConsumer) (pos : Pos) : Run unit :=
  match originalPositionFor smc pos with
  | Some (source, sline, scolumn) =>
      if negb (bool_decide (source = "")) then
        let fileContent := sourceContentFor smc source in
        if Js.truthy fileContent then
          indentation_incr ;;
          writeLine [color w "error stack source-map"
                       ("at " +:+ source +:+ ":" +:+ pretty sline +:+
                        (if negb (scolumn =? 0) then ":" +:+ pretty scolumn else ""))] ;;
          let posSM := {| line := sline;
                          column := Some (if negb (scolumn =? 0) then scolumn + 1 else scolumn) |} in
          _writeStackFilePosition (Js.split_lines (default "" fileContent)) posSM ;;
          indentation_decr
        else ret tt
      else ret tt
  | None => ret tt
  end.

(** [writeStackLine] (index.js, lines 494-544). In [sourceMapCache] a
    missing key is [undefined], [Some None] is a stored [null] and
    [Some (Some smc)] a stored consumer. *)
Definition writeStackLine (l fileName : string) (lineNumber columnNumber : option Z) : Run unit :=
  writeLine [color w "error stack" l] ;;
  match lineNumber with
  | None => ret tt
  | Some lineNumber =>
      let pos := {| line := lineNumber;
                    column := if truthyZ columnNumber then columnNumber else None |} in
      cached <- gets (fun r => filesCache r !! fileName) ;;
      match cached with
      | None => (* this.filesCache[fileName] === undefined *)
          modify (fun r => set_reads (reads r ++ [fileName]) r) ;;
          match readFileSync w fileName with
          | Some content =>
              modify (fun r => set_filesCache (<[fileName := Js.split_lines content]> (filesCache r)) r)
          | None => ret tt (* catch(e): do nothing *)
          end
      | Some _ => ret tt
      end ;;
      cached <- gets (fun r => filesCache r !! fileName) ;;
      match cached with
      | None => ret tt
      | Some lines =>
          let sm := linesContainSourceMap lines in
          opts <- gets options ;;
          when (showJavascriptFiles opts || negb (Js.truthy sm))
            (_writeStackFilePosition lines pos) ;;
          when (Js.truthy sm && showSourceMapFiles opts)
            (let sm := default "" sm in
             smc <- gets (fun r => sourceMapCache r !! fileName) ;;
             smc <-
               match smc with
               | Some None => ret None (* smc === null *)
               | _ =>
                  inline <- parseInlineSourceMap fileName sm ;;
                  smc <- match inline with
                         | Some c => ret (Some c)
                         | None => parseExternalSourceMap fileName sm
                         end ;;
                  modify (fun r => set_sourceMapCache (<[fileName := smc]> (sourceMapCache r)) r) ;;
                  ret smc
               end ;;
             match smc with
             | Some smc => writeOriginalPosition smc pos
             | None => ret tt
             end)
      end
  end.

(** [writeDiff] (index.js, lines 578-597): the body of the [forEach] *)
Definition writeDiff_line (escape : bool) (l : string) : Run unit :=
  if bool_decide (Js.length l = 0%nat) then ret tt
  else
    let begining := Js.substr2 l 0 1 in
    let l := if escape then escapeInvisibles l else l in
    let added := bool_decide (begining = "+") in
    let removed := bool_decide (begining = "-") in
    let usual := bool_decide (begining = " ") in
    if negb added && negb removed && negb usual then ret tt
    else
      let l := if added then color w "diff added" l
               else if removed then color w "diff removed" l
               else l in
      writeLine [l].

Definition writeDiff (actual expected : string) (escape : bool) : Run unit :=
  let lines := List.skipn 4 (Js.split_lines (createPatch w "str" actual expected)) in
  writeLine [] ;;
  writeLine [color w "diff added" "+ expected" +:+ " " +:+ color w "diff removed" "- actual"] ;;
  writeLine [] ;;
  forEach (writeDiff_line escape) lines.

(** [stringify] and [sameType] (index.js, lines 599-606) *)
Definition stringify (obj : Value) : string := format w obj.

Definition sameType (a b : Value) : bool :=
  let tA := getType w a in
  let tB := getType w b in
  bool_decide (tag_type tA = tag_type tB) &&
  bool_decide (tag_cls tA = tag_cls tB) &&
  bool_decide (tag_sub tA = tag_sub tB).

(** The diff part of [writeFailures] (index.js, lines 403-417) *)
Definition writeFailures_diff (actual expected : Value) : Run unit :=
  let typeA := typeof actual in
  let '(escape, actual, expected) :=
    if sameType actual expected && negb (bool_decide (typeA = "string"))
    then (false, VString (stringify actual), VString (stringify expected))
    else (true, actual, expected) in
  match actual, expected with
  | VString a, VString e =>
      if negb (bool_decide (a = e)) then writeDiff a e escape else ret tt
  | _, _ => ret tt
  end.

(** The stack lines of [writeFailures] (index.js, lines 388-391) *)
Definition stackLines (e : Err) : list string :=
  let index := Js.indexOf (stack e) (message e) in
  List.map Js.trim
    (Js.split_lines (Js.substr (stack e) (index + Z.of_nat (Js.length (message e))))).

Definition nonEmptyStackLines (e : Err) : list string :=
  List.filter (fun l => bool_decide (0 < Js.length l)%nat) (stackLines e).

(** The frame walk of [writeFailures] (index.js, lines 421-444): the
    [forEach] over the non-empty stack lines, [i] being the index of the
    line and [isFilesBeforeTests], [isTestFiles] the two variables of the
    enclosing function. Reading a property of [parsedStack[i]] when it is
    [undefined], and calling [includes] on a [null] file name, throw a
    [TypeError]. *)
Fixpoint writeFailures_frames (parsedStack : list CallSite) (lines : list string)
    (i : nat) (isFilesBeforeTests isTestFiles : bool) : Run unit :=
  match lines with
  | [] => ret tt
  | l :: lines' =>
      match parsedStack !! i with
      | None => throw (TypeError "Cannot read property 'getFileName' of undefined")
      | Some site =>
          let fileName := getFileName site in
          let lineNumber := getLineNumber site in
          let columnNumber := getColumnNumber site in
          opts <- gets options ;;
          if hideNodeModulesStack opts then
            match fileName with
            | None => throw (TypeError "Cannot read property 'includes' of null")
            | Some fileName =>
                if negb (Js.includes fileName "node_modules") then
                  files <- gets files ;;
                  let '(isTestFiles, isFilesBeforeTests) :=
                    if bool_decide (fileName ∈ files) then (true, false)
                    else (false, isFilesBeforeTests) in
                  when ((isTestFiles || isFilesBeforeTests) &&
                        (negb (Js.truthy (stackExclude opts)) ||
                         negb (minimatch w fileName (default "" (stackExclude opts)))))
                    (writeStackLine l fileName lineNumber columnNumber) ;;
                  writeFailures_frames parsedStack lines' (S i) isFilesBeforeTests isTestFiles
                else
                  writeFailures_frames parsedStack lines' (S i) isFilesBeforeTests isTestFiles
            end
          else
            writeFailures_frames parsedStack lines' (S i) isFilesBeforeTests isTestFiles
      end
  end.

(** The body of [failures.forEach] in [writeFailures] (index.js, lines
    375-449); [n] is the number of failures and [i] the index of [test]. *)
Definition writeFailures_test (n : nat) (test : Test) (i : nat) : Run unit :=
  let e := err test in
  opts <- gets options ;;
  let i := if showFailsInBackOrder opts then (n - 1 - i)%nat else i in
  let parsedStack := stacktrace_parse w e in
  let stack := stackLines e in
  writeLine [] ;;
  writeLine [color w "fail" "%d) %s"; pretty (i + 1)%nat; Js.join " > " (titlePath test)] ;;
  writeLine [] ;;
  indentation_incr ;;
  printErrorMessage (message e) ;;
  when (negb (timedOut test))
    (writeFailures_diff (actual e) (expected e) ;;
     writeLine [] ;;
     writeFailures_frames parsedStack
       (List.filter (fun l => bool_decide (0 < Js.length l)%nat) stack) 0 true true) ;;
  indentation_decr.

Fixpoint writeFailures_each (n : nat) (failures : list Test) (i : nat) : Run unit :=
  match failures with
  | [] => ret tt
  | test :: failures' =>
      writeFailures_test n test i ;;
      writeFailures_each n failures' (S i)
  end.

(** [writeFailures] (index.js, lines 367-451) *)
Definition writeFailures (failures : list Test) : Run unit :=
  writeLine ["------------------------------------------------------"] ;;
  writeLine [color w "stat" "Failed tests"] ;;
  indentation_incr ;;
  opts <- gets options ;;
  let failures := if showFailsInBackOrder opts then List.rev failures else failures in
  writeFailures_each (List.length failures) failures 0 ;;
  indentation_decr.

End Pipeline.

(** ** A concrete world and reporter for the examples *)

Module Example.

Definition nl (ls : list string) : string := Js.join Js.LF ls.

(** A consumer that maps every position to line 2, column 0 of [a.ts]. *)
Definition consumer : SourceMapConsumer :=
  {| originalPositionFor := fun _ => Some ("a.ts", 2, 0);
     sourceContentFor := fun src =>
       if bool_decide (src = "a.ts") then Some (nl ["let x = 1"; "throw x"; "// end"]) else None |}.

Definition site (f : string) (l c : Z) : CallSite :=
  {| getFileName := Some f; getLineNumber := Some l; getColumnNumber := Some c |}.

(** One call site for each line of the stack after the first that reads
    [at <file>:<line>:<column>] is what the package stack-trace answers on
    the stacks of the examples; the table lists them by stack text. *)
Definition world (fs : string -> option string)
    (frames : string -> list CallSite) : World :=
  {| readFileSync := fs;
     stacktrace_parse := fun e => frames (stack e);
     minimatch := fun _ _ => false;
     getType := fun v => {| tag_type := typeof v; tag_cls := None; tag_sub := None |};
     format := fun v => match v with
                        | VNumber z => pretty z
                        | VString s => s
                        | _ => typeof v
                        end;
     createPatch := fun name a e =>
       nl ["Index: " +:+ name; "==================================================================="%string;
           "--- " +:+ name; "+++ " +:+ name; "@@ -1,1 +1,1 @@"; "-" +:+ a; "+" +:+ e; ""];
     color := fun _ s => s;
     config_indentation := 2;
     dataUriToBuffer := fun s => Some (Js.drop 5 s);
     newSourceMapConsumer := fun _ => Some consumer;
     path_dirname := fun p => p;
     path_resolve := fun d p => d +:+ "/" +:+ p |}.

Definition defaults : Options :=
  {| showSourceMapFiles := false;
     showJavascriptFiles := true;
     showFailsInBackOrder := false;
     hideNodeModulesStack := true;
     hideTestingLibraryDOM := true;
     stackExclude := None |}.

Definition reporter (o : Options) (fls : list string) : Reporter :=
  {| options := o; files := fls; indentation := 0;
     filesCache := ∅; sourceMapCache := ∅;
     stream := []; reads := []; parses := [] |}.

Definition fs1 (p : string) : option string :=
  if bool_decide (p = "/p/a.js") then Some (nl ["var a = 1;"; "throw new Error('x');"; ""; "done();"])
  else None.

Definition stack1 : string := nl ["Error: boom"; "    at f (/p/a.js:2:7)"; "    at g (/q/lib.js:5:1)"].

Definition frames1 (s : string) : list CallSite :=
  if bool_decide (s = stack1) then [site "/p/a.js" 2 7; site "/q/lib.js" 5 1] else [].

End Example.

(** * Notions used in the statements *)

(** What one line contributes to the scan: the text after the marker when
    the trimmed line begins with it. *)
Definition markerValue (raw : string) : option string :=
  let l := Js.trim raw in
  if bool_decide (Js.substr2 l 0 (Z.of_nat (Js.length sourceMapComment)) = sourceMapComment)
  then Some (Js.substr l (Z.of_nat (Js.length sourceMapComment)))
  else None.

(** The last non-blank line of a file, trimmed. *)
Definition lastNonBlank (lines : list string) : option string :=
  last (List.filter (fun l => negb (bool_decide (l = ""))) (List.map Js.trim lines)).

(** The text of one [writeLine] call in the state [r]. *)
Definition written (w : World) (r : Reporter) (arguments : list string) : string :=
  indent w (indentation r) +:+ util_format arguments +:+ Js.LF.

(** The leading character of a line of the patch. *)
Definition diffMarker (l : string) : string := Js.substr2 l 0 1.

(** A line of the patch is a diff line when it begins with [+], [-] or a
    space. *)
Definition isDiffLine (l : string) : bool :=
  bool_decide (diffMarker l = "+") || bool_decide (diffMarker l = "-") ||
  bool_decide (diffMarker l = " ").

(** The text of a diff line before styling, and the styled line. *)
Definition diffText (escape : bool) (l : string) : string :=
  if escape then escapeInvisibles l else l.

(** Added lines are styled as insertions, removed lines as deletions. *)
Definition diffStyled (w : World) (escape : bool) (l : string) : string :=
  if bool_decide (diffMarker l = "+") then color w "diff added" (diffText escape l)
  else if bool_decide (diffMarker l = "-") then color w "diff removed" (diffText escape l)
  else diffText escape l.

(** The rows of the window around line [n] (counted from 1), as indices
    into the file: the line before, the line itself and the line after. A
    row is rendered when the file has that line and the line is not
    empty. *)
Definition windowIndices (n : Z) : list Z := [n - 2; n - 1; n].

(** [lines[i]] is a non-empty string. *)
Definition renderable (lines : list string) (i : Z) : bool :=
  Js.truthy (arrayGet lines i).

(** The rows that are rendered, in the order of the file. *)
Definition snippetRows (lines : list string) (n : Z) : list Z :=
  List.filter (renderable lines) (windowIndices n).

(** The width of the longest line number among the rows. *)
Definition snippetWidth (rows : list Z) : nat :=
  max_list (List.map (fun i => Js.length (pretty (i + 1))) rows).

(** The text of the row of index [i]: the line number, right-aligned in
    [width] columns, a bar and the line; on the target line the number is
    styled and so is the character at the column, when there is one. *)
Definition snippetRow (w : World) (text : option string) (pos : Pos) (width : nat) (i : Z) : string :=
  let l := default "" text in
  if bool_decide (i + 1 = line pos) then
    color w "error line pos" (pad (pretty (i + 1)) width) +:+ " | " +:+
    (if truthyZ (column pos) then
       Js.substr2 l 0 (default 0 (column pos) - 1) +:+
       color w "error line pos" (charAt l (default 0 (column pos) - 1)) +:+
       Js.substr l (default 0 (column pos))
     else l)
  else pad (pretty (i + 1)) width +:+ " | " +:+ l.

(** The object of [_writeStackFilePosition]: reading it gives the lines of
    the file, and its keys that hold a non-empty line are the renderable
    rows of the window, in increasing order. *)
Definition windowObject (lines : list string) (n : Z) : list (Z * option string) :=
  objectEntries
    [ (n - 2, arrayGet lines (n - 2));
      (n - 1, arrayGet lines (n - 1));
      (n, arrayGet lines n) ].

(** A computation that leaves [this.options] and [this.files] alone,
    whatever its outcome. *)
Definition keeps_settings {A} (m : Run A) : Prop :=
  forall r, options (snd (m r)) = options r /\ files (snd (m r)) = files r.

(** A file is excluded when [stackExclude] is set and matches it. *)
Definition frameExcluded (w : World) (opts : Options) (fileName : string) : bool :=
  Js.truthy (stackExclude opts) && minimatch w fileName (default "" (stackExclude opts)).

(** The frames that are rendered, from the stack lines paired with their
    call sites; [projectSeen] says that a project file has been met. A frame
    of a [node_modules] file is skipped and leaves [projectSeen] as it is; a
    frame of a project file is rendered; any other frame is rendered as long
    as no project file has been met. An excluded file is not rendered. *)
Fixpoint shownFrames (w : World) (opts : Options) (project : list string)
    (frames : list (string * CallSite)) (projectSeen : bool) : list (string * CallSite) :=
  match frames with
  | [] => []
  | (l, site) :: frames' =>
      let fileName := default "" (getFileName site) in
      if Js.includes fileName "node_modules" then
        shownFrames w opts project frames' projectSeen
      else if bool_decide (fileName ∈ project) then
        (if frameExcluded w opts fileName then [] else [(l, site)]) ++
        shownFrames w opts project frames' true
      else
        (if projectSeen || frameExcluded w opts fileName then [] else [(l, site)]) ++
        shownFrames w opts project frames' projectSeen
  end.

(** The call of [writeStackLine] for a stack line and its call site. *)
Definition renderFrame (w : World) (frame : string * CallSite) : Run unit :=
  writeStackLine w (fst frame) (default "" (getFileName (snd frame)))
    (getLineNumber (snd frame)) (getColumnNumber (snd frame)).

(** ** Inputs of the examples

    A file with an inline source map, reported with [showSourceMapFiles].
    The map is a version 3 source map with one source and one mapping, and
    the packages of the example do what the real ones do on it:
    [dataUriToBuffer] decodes the base64 text of the URI, and the consumer
    is built from the decoded JSON text only. *)
Module ExampleMap.

(** The value of a character of the base64 alphabet. *)
Definition b64value (c : ascii) : option N :=
  let n := N_of_ascii c in
  if (65 <=? n)%N && (n <=? 90)%N then Some (n - 65)%N
  else if (97 <=? n)%N && (n <=? 122)%N then Some (n - 71)%N
  else if (48 <=? n)%N && (n <=? 57)%N then Some (n + 4)%N
  else if (n =? 43)%N then Some 62%N
  else if (n =? 47)%N then Some 63%N
  else None.

(** The bytes of a group of four values, of which the first [k] are kept. *)
Definition b64bytes (a b c d : N) (k : nat) : string :=
  let n := (a * 262144 + b * 4096 + c * 64 + d)%N in
  Js.take k
    (String (ascii_of_N (n / 65536))
       (String (ascii_of_N ((n / 256) mod 256))
          (String (ascii_of_N (n mod 256)) EmptyString))).

(** [Buffer.from(s, 'base64').toString()] for a padded base64 text [s] of
    8-bit characters; [None] for any other text. *)
Fixpoint b64decode (s : string) : option string :=
  match s with
  | EmptyString => Some EmptyString
  | String a (String b (String c (String d rest))) =>
      if bool_decide (c = "="%char) then
        if bool_decide (d = "="%char /\ rest = EmptyString) then
          va ← b64value a; vb ← b64value b;
          Some (b64bytes va vb 0 0 1)
        else None
      else if bool_decide (d = "="%char) then
        if bool_decide (rest = EmptyString) then
          va ← b64value a; vb ← b64value b; vc ← b64value c;
          Some (b64bytes va vb vc 0 2)
        else None
      else
        va ← b64value a; vb ← b64value b; vc ← b64value c; vd ← b64value d;
        tail ← b64decode rest;
        Some (b64bytes va vb vc vd 3 +:+ tail)
  | _ => None
  end.

(** [dataUriToBuffer(uri).toString()] for a base64 URI of a JSON text. *)
Definition decodeDataUri (uri : string) : option string :=
  if Js.startsWith "data:application/json;base64," uri
  then b64decode (Js.drop 29%nat uri)
  else None.

(** The text of the map:
    [{version: 3, sources: [a.ts], names: [], mappings: AAAA,
      sourcesContent: [let x = 1]}] in JSON, the quotation marks of which
    stand between the pieces below. *)
Definition mapText : string :=
  Js.join (String "034"%char EmptyString)
    ["{"; "version"; ":3,"; "sources"; ":["; "a.ts"; "],"; "names"; ":[],";
     "mappings"; ":"; "AAAA"; ","; "sourcesContent"; ":["; "let x = 1"; "]}"].

(** The data URI of [mapText]. *)
Definition mapUri : string :=
  "data:application/json;base64," +:+
  "eyJ2ZXJzaW9uIjozLCJzb3VyY2VzIjpbImEudHMiXSwibmFtZXMiOltdLCJtYXBwaW5ncyI6" +:+
  "IkFBQUEiLCJzb3VyY2VzQ29udGVudCI6WyJsZXQgeCA9IDEiXX0=".

(** The consumer of [mapText]. The one mapping [AAAA] sends line 1, column
    0 of the generated file to line 1, column 0 of [a.ts], and is the
    answer for every column of line 1; no other line has a mapping. *)
Definition consumer : SourceMapConsumer :=
  {| originalPositionFor := fun pos =>
       if bool_decide (line pos = 1) then Some ("a.ts", 1, 0) else None;
     sourceContentFor := fun source =>
       if bool_decide (source = "a.ts") then Some "let x = 1" else None |}.

(** [new SourceMapConsumer(text)] accepts the text of the map; any other
    text of the example is not a source map, and is rejected. *)
Definition construct (text : string) : option SourceMapConsumer :=
  if bool_decide (text = mapText) then Some consumer else None.

(** A generated file that ends in the inline source map. *)
Definition fs (p : string) : option string :=
  if bool_decide (p = "/p/b.js")
  then Some (Example.nl ["throw 1;"; "//# sourceMappingURL=" +:+ mapUri])
  else None.

Definition opts : Options :=
  {| showSourceMapFiles := true;
     showJavascriptFiles := false;
     showFailsInBackOrder := false;
     hideNodeModulesStack := true;
     hideTestingLibraryDOM := true;
     stackExclude := None |}.

(** The packages of [Example.world], with the decoder and the consumer of
    the map. *)
Definition w : World :=
  let base := Example.world fs (fun _ => []) in
  {| readFileSync := fs;
     stacktrace_parse := stacktrace_parse base;
     minimatch := minimatch base;
     getType := getType base;
     format := format base;
     createPatch := createPatch base;
     color := color base;
     config_indentation := config_indentation base;
     dataUriToBuffer := decodeDataUri;
     newSourceMapConsumer := construct;
     path_dirname := path_dirname base;
     path_resolve := path_resolve base |}.

Definition r0 : Reporter := Example.reporter opts ["/p/b.js"].

Definition call : Run unit :=
  writeStackLine w "at f (/p/b.js:1:1)" "/p/b.js" (Some 1) (Some 1).

End ExampleMap.

(** Two stacks whose first frame cannot be rendered: a call site without a
    file name, and a position past the end of the file [/p/a.js]. *)
Module ExampleThrow.

Definition stack_native : string :=
  Example.nl ["Error: boom"; "    at Array.forEach (<anonymous>)"; "    at f (/p/a.js:2:7)"].

Definition stack_far : string :=
  Example.nl ["Error: boom"; "    at f (/p/a.js:99:1)"; "    at g (/p/a.js:2:7)"].

(** The call site of [at Array.forEach (<anonymous>)] has no file name and
    no position. *)
Definition anonymous : CallSite :=
  {| getFileName := None; getLineNumber := None; getColumnNumber := None |}.

Definition frames (s : string) : list CallSite :=
  if bool_decide (s = stack_native) then [anonymous; Example.site "/p/a.js" 2 7]
  else if bool_decide (s = stack_far) then [Example.site "/p/a.js" 99 1; Example.site "/p/a.js" 2 7]
  else Example.frames1 s.

Definition w : World := Example.world Example.fs1 frames.

Definition r0 : Reporter := Example.reporter Example.defaults ["/p/a.js"].

Definition failure (title stk : string) : Test :=
  {| titlePath := [title]; timedOut := false;
     err := {| message := "boom"; stack := stk; actual := VUndefined; expected := VUndefined |} |}.

End ExampleThrow.

(** An error whose message is empty. *)
Module ExampleEmptyMessage.

(** The stack of [new Error()], whose message is the empty string. *)
Definition stk : string := Example.nl ["Error"; "    at f (/p/a.js:2:7)"].

Definition e : Err :=
  {| message := ""; stack := stk; actual := VUndefined; expected := VUndefined |}.

(** One call site, for the one line of the stack after its first. *)
Definition frames (s : string) : list CallSite :=
  if bool_decide (s = stk) then [Example.site "/p/a.js" 2 7] else [].

Definition w : World := Example.world Example.fs1 frames.

Definition test : Test := {| titlePath := ["empty"]; timedOut := false; err := e |}.

End ExampleEmptyMessage.

(** ** Relations between the reporter before and after a computation *)

(** [moves R m]: whatever its outcome, [m] takes a reporter to one that is
    related to it by [R]. *)
Definition moves (R : Reporter -> Reporter -> Prop) {A} (m : Run A) : Prop :=
  forall r, R r (snd (m r)).

(** Nothing but the stream and the indentation counter differs: no file is
    read, no map is parsed and the caches are as they were. *)
Definition quiet (r r' : Reporter) : Prop :=
  options r' = options r /\ files r' = files r /\
  filesCache r' = filesCache r /\ sourceMapCache r' = sourceMapCache r /\
  reads r' = reads r /\ parses r' = parses r.

(** The entries of the file cache are kept, with their content. *)
Definition files_kept (r r' : Reporter) : Prop :=
  filesCache r ⊆ filesCache r'.

(** [lands n k m]: started with the indentation counter at [n], a normal
    return of [m] leaves it at [k]. *)
Definition lands (n k : nat) {A} (m : Run A) : Prop :=
  forall r a r', indentation r = n -> m r = (Done a, r') -> indentation r' = k.

(** [m] returns normally from every reporter. *)
Definition never_throws {A} (m : Run A) : Prop :=
  forall r, exists a, fst (m r) = Done a.

(** The lines of a message that [printErrorMessage] prints. *)
Definition shownMessageLines (opts : Options) (message : string) : list string :=
  if hideTestingLibraryDOM opts && Js.includes message "Unable to find an element"
  then [hd "" (Js.split_lines message)]
  else Js.split_lines message.

(** Every new read is a read of the path [p], and the file cache is as it
    was. *)
Definition reads_only (p : string) (r r' : Reporter) : Prop :=
  filesCache r' = filesCache r /\
  exists extra, reads r' = reads r ++ extra /\ Forall (fun q => q = p) extra.

(** The path of the external source map that the marker [sm] of the file
    [fileName] names. *)
Definition externalMapPath (w : World) (fileName sm : string) : string :=
  path_resolve w (path_dirname w fileName) sm.

(** The characters of a string. *)
Fixpoint chars (s : string) : list ascii :=
  match s with
  | EmptyString => []
  | String c s' => c :: chars s'
  end.

(** A list of characters without its leading white space, and the lists
    that do not begin with white space. *)
Fixpoint ltrim (l : list ascii) : list ascii :=
  match l with
  | c :: l' => if Ascii.is_space c then ltrim l' else l
  | [] => []
  end.

Definition starts_visible (l : list ascii) : Prop :=
  match l with
  | c :: _ => Ascii.is_space c = false
  | [] => True
  end.

(** ** The numbers of the failures *)

(** The report of one failure under the number [number + 1]: the body of
    [failures.forEach] in [writeFailures], after the index has been
    settled. *)
Definition reportFailure (w : World) (number : nat) (test : Test) : Run unit :=
  (let e := err test in
   let parsedStack := stacktrace_parse w e in
   let stack := stackLines e in
   writeLine w [] ;;
   writeLine w [color w "fail" "%d) %s"; pretty (number + 1)%nat;
                Js.join " > " (titlePath test)] ;;
   writeLine w [] ;;
   indentation_incr ;;
   printErrorMessage w (message e) ;;
   when (negb (timedOut test))
     (writeFailures_diff w (actual e) (expected e) ;;
      writeLine w [] ;;
      writeFailures_frames w parsedStack
        (List.filter (fun l => bool_decide (0 < Js.length l)%nat) stack) 0 true true) ;;
   indentation_decr)%run.

(** The failures with their positions in the list, counted from [start]. *)
Fixpoint numbered (start : nat) (failures : list Test) : list (nat * Test) :=
  match failures with
  | [] => []
  | test :: failures' => (start, test) :: numbered (S start) failures'
  end.

(** The same, counting down from [top]. *)
Fixpoint countdown (top : nat) (failures : list Test) : list (nat * Test) :=
  match failures with
  | [] => []
  | test :: failures' => (top, test) :: countdown (Nat.pred top) failures'
  end.

(** ** The options of a reporter (index.js, lines 101-159)

    [this.options] in full. An option is read for its truth value only, so
    that a field is [true] when the JavaScript value is truthy: the
    [~v.indexOf(...)] of the code is a number that is not 0 exactly when the
    text occurs. *)
Record ReporterOptions := {
  opt_showSourceMapFiles : bool;
  opt_showJavascriptFiles : bool;
  opt_showFailsInBackOrder : bool;
  opt_mockConsole : bool;
  opt_hideNodeModulesStack : bool;
  opt_hideTestingLibraryDOM : bool;
  opt_stackExclude : option string;
  opt_hideTitles : bool;
  opt_hideStats : bool;
  opt_clearScreen : bool;
}.

(** The two variables of [process.env] that are read; [None] for a variable
    that is not set. *)
Record Env := {
  MOCHA_REPORTER_OPTS : option string;
  MOCHA_REPORTER_STACK_EXCLUDE : option string;
}.

(** [parseEnvOptions] (index.js, lines 101-114) *)
Definition parseEnvOptions (opts : ReporterOptions) (env : Env) : ReporterOptions :=
  let v := if Js.truthy (MOCHA_REPORTER_OPTS env)
           then default "" (MOCHA_REPORTER_OPTS env) else "" in
  let s := MOCHA_REPORTER_STACK_EXCLUDE env in
  {| opt_showSourceMapFiles := opt_showSourceMapFiles opts;
     opt_showJavascriptFiles := opt_showJavascriptFiles opts;
     opt_showFailsInBackOrder := opt_showFailsInBackOrder opts;
     opt_mockConsole := opt_mockConsole opts;
     opt_hideNodeModulesStack := opt_hideNodeModulesStack opts;
     opt_hideTestingLibraryDOM := opt_hideTestingLibraryDOM opts;
     opt_stackExclude := if Js.truthy s then s else opt_stackExclude opts;
     opt_hideTitles := Js.includes v "hide-titles";
     opt_hideStats := Js.includes v "hide-stats";
     opt_clearScreen := Js.includes v "clear-screen" |}.

(** [parseMochaReporterOptions] (index.js, lines 116-138), for reporter
    options whose values are strings; [k in reporterOptions] is the presence
    of the key. *)
Definition parseMochaReporterOptions (opts : ReporterOptions)
    (reporterOptions : gmap string string) : ReporterOptions :=
  let flag (key : string) (old : bool) : bool :=
    match reporterOptions !! key with
    | Some value => bool_decide (value = "true")
    | None => old
    end in
  {| opt_showSourceMapFiles :=
       match reporterOptions !! "show-file-content" with
       | Some value => Js.includes value "sm"
       | None => opt_showSourceMapFiles opts
       end;
     opt_showJavascriptFiles :=
       match reporterOptions !! "show-file-content" with
       | Some value => Js.includes value "js"
       | None => opt_showJavascriptFiles opts
       end;
     opt_showFailsInBackOrder := flag "show-back-order" (opt_showFailsInBackOrder opts);
     opt_mockConsole := opt_mockConsole opts;
     opt_hideNodeModulesStack := opt_hideNodeModulesStack opts;
     opt_hideTestingLibraryDOM := opt_hideTestingLibraryDOM opts;
     opt_stackExclude :=
       match reporterOptions !! "stack-exclude" with
       | Some value => Some value
       | None => opt_stackExclude opts
       end;
     opt_hideTitles := flag "hide-titles" (opt_hideTitles opts);
     opt_hideStats := flag "hide-stats" (opt_hideStats opts);
     opt_clearScreen := flag "clear-screen" (opt_clearScreen opts) |}.

(** The options of the constructor (index.js, lines 146-159): the literal,
    the environment, the reporter options of mocha, and the default of
    [showJavascriptFiles]. The fields that the literal leaves out are
    [undefined], which is falsy. *)
Definition initialOptions : ReporterOptions :=
  {| opt_showSourceMapFiles := false;
     opt_showJavascriptFiles := false;
     opt_showFailsInBackOrder := false;
     opt_mockConsole := true;
     opt_hideNodeModulesStack := true;
     opt_hideTestingLibraryDOM := true;
     opt_stackExclude := None;
     opt_hideTitles := false;
     opt_hideStats := false;
     opt_clearScreen := false |}.

Definition newOptions (env : Env) (reporterOptions : gmap string string) : ReporterOptions :=
  let opts := parseMochaReporterOptions (parseEnvOptions initialOptions env) reporterOptions in
  if negb (opt_showSourceMapFiles opts) && negb (opt_showJavascriptFiles opts) then
    {| opt_showSourceMapFiles := opt_showSourceMapFiles opts;
       opt_showJavascriptFiles := true;
       opt_showFailsInBackOrder := opt_showFailsInBackOrder opts;
       opt_mockConsole := opt_mockConsole opts;
       opt_hideNodeModulesStack := opt_hideNodeModulesStack opts;
       opt_hideTestingLibraryDOM := opt_hideTestingLibraryDOM opts;
       opt_stackExclude := opt_stackExclude opts;
       opt_hideTitles := opt_hideTitles opts;
       opt_hideStats := opt_hideStats opts;
       opt_clearScreen := opt_clearScreen opts |}
  else opts.

(** The options that the failure report reads. *)
Definition reportOptions (o : ReporterOptions) : Options :=
  {| showSourceMapFiles := opt_showSourceMapFiles o;
     showJavascriptFiles := opt_showJavascriptFiles o;
     showFailsInBackOrder := opt_showFailsInBackOrder o;
     hideNodeModulesStack := opt_hideNodeModulesStack o;
     hideTestingLibraryDOM := opt_hideTestingLibraryDOM o;
     stackExclude := opt_stackExclude o |}.

(** ** The rules of the console (index.js, lines 24-99 and 166-204) *)

(** A word character of a regular expression, [\w]. *)
Definition isWordChar (c : ascii) : bool :=
  let n := nat_of_ascii c in
  ((48 <=? n) && (n <=? 57))%nat || ((65 <=? n) && (n <=? 90))%nat ||
  ((97 <=? n) && (n <=? 122))%nat || (n =? 95)%nat.

(** The rest of a string after its longest prefix of word characters. *)
Fixpoint dropWord (s : string) : string :=
  match s with
  | String c s' => if isWordChar c then dropWord s' else s
  | EmptyString => EmptyString
  end.

(** A rule as it is written: the test of its regular expression on a
    message, its group ([None] for [null]) and its [keep] flag. *)
Record Rule := {
  rule_test : string -> bool;
  rule_group : option string;
  rule_keep : bool;
}.

(** The regular expression [/^prefix/]. *)
Definition startsWithRule (prefix : string) (group : option string) : Rule :=
  {| rule_test := Js.startsWith prefix; rule_group := group; rule_keep := false |}.

(** The expression of the act warning: at the start of the message,
    [Warning: An update to ], any number of word characters, and
    [ inside a test was not wrapped in act]. The text after the word
    characters begins with a space, which is no word character, so that the
    longest run of word characters is the only one that can match. *)
Definition actWarning (m : string) : bool :=
  Js.startsWith "Warning: An update to " m &&
  Js.startsWith " inside a test was not wrapped in act"
    (dropWord (Js.drop (Js.length "Warning: An update to ") m)).

Definition doubleQuote : string := String "034"%char "".

(** The table [rules]. In the last expression the parentheses are groups,
    not characters: it matches the texts that begin with
    [The width0 and height0]. *)
Definition rules : list Rule :=
  [ startsWithRule "You are using the simple (heuristic) fragment matcher"
      (Some "Apollo: You are using the simple (heuristic) fragment matcher.");
    startsWithRule "Heuristic fragment matching going on" None;
    {| rule_test := actWarning; rule_group := Some "React: Act warnings";
       rule_keep := true |};
    startsWithRule "Warning: componentWillReceiveProps has been renamed"
      (Some "React deprecation warning: componentWillReceiveProps");
    startsWithRule "Warning: componentWillMount has been renamed"
      (Some "React deprecation warning: componentWillMount");
    {| rule_test := fun m => Js.includes m "react-beautiful-dnd";
       rule_group := Some "React draggable component"; rule_keep := false |};
    startsWithRule "Warning: unmountComponentAtNode"
      (Some "React unmounted component at node warning");
    startsWithRule "Warning: Can't perform a React state update on an unmounted component"
      (Some "React unmounted component: cannot perform a React state update");
    startsWithRule "Warning: Encountered two children with the same key"
      (Some "React children: two children with the same key");
    startsWithRule
      ("Warning: Each child in a list should have a unique " +:+ doubleQuote +:+
       "key" +:+ doubleQuote +:+ " prop")
      (Some "React children: each child must have a unique key");
    startsWithRule "The width0 and height0"
      (Some "Recharts: React component with no width and height") ].

(** What a rule gathers during a run: [count], [color] and [severity], each
    [undefined] at first. *)
Record RuleState := {
  rule_count : option nat;
  rule_color : option string;
  rule_severity : option string;
}.

Definition noRuleState : RuleState :=
  {| rule_count := None; rule_color := None; rule_severity := None |}.

(** The three severities that the console functions pass. *)
Inductive Severity := INFO | WARN | ERROR.

Definition severityName (s : Severity) : string :=
  match s with INFO => "INFO" | WARN => "WARN" | ERROR => "ERROR" end.

(** [getSeverityAndColor] (index.js, lines 82-91), as (color, severity) *)
Definition getSeverityAndColor (s : Severity) : string * string :=
  match s with
  | INFO => ("stat", "INFO")
  | WARN => ("pending", "WARN")
  | ERROR => ("fail", "ERROR")
  end.

(** [getRuleMatched] (index.js, lines 72-74), for a table [table]: the
    position of the first rule whose expression matches; [None] is the
    [undefined] of [find]. A rule is an object, which its position in the
    table stands for. *)
Fixpoint findRule (table : list Rule) (message : string) (i : nat) : option nat :=
  match table with
  | [] => None
  | rule :: table' =>
      if rule_test rule message then Some i else findRule table' message (S i)
  end.

Definition getRuleMatched (table : list Rule) (message : string) : option nat :=
  findRule table message 0.

(** [addToCount] (index.js, lines 76-80) *)
Definition addToCount (matchedRule : option nat) (states : list RuleState) : list RuleState :=
  match matchedRule with
  | None => states
  | Some i =>
      alter (fun st =>
        {| rule_count := Some (default 0%nat (rule_count st) + 1)%nat;
           rule_color := rule_color st;
           rule_severity := rule_severity st |}) i states
  end.

(** [addSeverity] (index.js, lines 93-99) *)
Definition addSeverity (severity : Severity) (matchedRule : option nat)
    (states : list RuleState) : list RuleState :=
  match matchedRule with
  | None => states
  | Some i =>
      alter (fun st =>
        if negb (Js.truthy (rule_color st)) then
          {| rule_count := rule_count st;
             rule_color := Some (fst (getSeverityAndColor severity));
             rule_severity := Some (snd (getSeverityAndColor severity)) |}
        else st) i states
  end.

(** The console of a run: the state of the rules, the messages of the three
    functions and the calls handed on to the original functions. *)
Record Console := {
  ruleStates : list RuleState;
  consoleInfos : list string;
  consoleWarns : list string;
  consoleErrors : list string;
  handedOn : list (Severity * string);
}.

Definition newConsole (table : list Rule) : Console :=
  {| ruleStates := List.map (fun _ => noRuleState) table;
     consoleInfos := []; consoleWarns := []; consoleErrors := [];
     handedOn := [] |}.

(** [console.log], [console.warn] and [console.error] as the constructor
    replaces them (index.js, lines 172-204); the three differ in their
    severity, their list and the original function. *)
Definition consoleCall (table : list Rule) (mockConsole : bool) (severity : Severity)
    (message : string) (c : Console) : Console :=
  let matchedRule := getRuleMatched table message in
  let states := addToCount matchedRule (addSeverity severity matchedRule (ruleStates c)) in
  let keep := match matchedRule with
              | Some i => from_option rule_keep false (table !! i)
              | None => false
              end in
  let on := if negb mockConsole then true else keep in
  {| ruleStates := states;
     consoleInfos := match severity with
                     | INFO => consoleInfos c ++ [message] | _ => consoleInfos c end;
     consoleWarns := match severity with
                     | WARN => consoleWarns c ++ [message] | _ => consoleWarns c end;
     consoleErrors := match severity with
                      | ERROR => consoleErrors c ++ [message] | _ => consoleErrors c end;
     handedOn := if on then handedOn c ++ [(severity, message)] else handedOn c |}.

(** A run of console calls, in order. *)
Definition consoleCalls (table : list Rule) (mockConsole : bool)
    (calls : list (Severity * string)) (c : Console) : Console :=
  List.fold_left (fun c call => consoleCall table mockConsole (fst call) (snd call) c) calls c.

(** The number printed after [TOTAL Messages Suppressed] (index.js, line
    282). *)
Definition consoleTotal (c : Console) : nat :=
  (length (consoleInfos c) + length (consoleWarns c) + length (consoleErrors c))%nat.

(** [writeSuppressedConsoleMessages] (index.js, lines 340-353), for a table
    and the state of its rules. A template prints [null] by its name.
    [color] is a function of the name of a style and a text: the call of the
    code for a rule whose [color] or [severity] is [undefined] has neither,
    and is an exception here. No run of the console leads to it, since a
    rule gets its color and its severity with its first count. *)
Definition writeSuppressedRule (w : World) (rule : Rule) (st : RuleState) : Run unit :=
  match rule_count st with
  | Some count =>
      if negb (count =? 0)%nat then
        match rule_color st, rule_severity st with
        | Some c, Some severity =>
            writeLine w [color w c severity;
                         default "null" (rule_group rule) +:+ " (" +:+ pretty count +:+ ")"]
        | _, _ => throw (LibraryError "color")
        end
      else ret tt
  | None => ret tt
  end.

Definition writeSuppressedConsoleMessages (w : World) (table : list Rule)
    (states : list RuleState) (total : nat) : Run unit :=
  (writeLine w ["------------------------------------------------------"] ;;
   writeLine w [color w "stat" "Suppressed console messages"] ;;
   indentation_incr ;;
   forEach (fun rs => writeSuppressedRule w (fst rs) (snd rs)) (zip table states) ;;
   writeLine w ["TOTAL Messages Suppressed (" +:+ pretty total +:+ ")"] ;;
   indentation_decr)%run.

(** The calls, among [calls], whose message falls to the rule at position
    [i]: the rule is the first of the table that matches the message. *)
Definition callsOfRule (table : list Rule) (i : nat) (calls : list (Severity * string))
    : list (Severity * string) :=
  List.filter (fun call => bool_decide (getRuleMatched table (snd call) = Some i)) calls.

(** What one matching call does to the state of its rule: [addSeverity],
    then [addToCount]. *)
Definition bump (severity : Severity) (st : RuleState) : RuleState :=
  {| rule_count := Some (default 0%nat (rule_count st) + 1)%nat;
     rule_color := if negb (Js.truthy (rule_color st))
                   then Some (fst (getSeverityAndColor severity)) else rule_color st;
     rule_severity := if negb (Js.truthy (rule_color st))
                      then Some (snd (getSeverityAndColor severity)) else rule_severity st |}.

(** Whether the rule that a message falls to has the [keep] flag. *)
Definition keptByRule (table : list Rule) (message : string) : bool :=
  match getRuleMatched table message with
  | Some i => from_option rule_keep false (table !! i)
  | None => false
  end.

(** The lines of the summary for the rules [table'], which stand at the
    positions [i], [i + 1], ... of the table, after the console calls
    [calls]: a rule is listed when a call fell to it, in the color and with
    the severity of the first such call, and with the number of these
    calls. *)
Fixpoint summaryLines (w : World) (table : list Rule) (calls : list (Severity * string))
    (table' : list Rule) (i : nat) : list (list string) :=
  match table' with
  | [] => []
  | rule :: rest =>
      match callsOfRule table i calls with
      | [] => []
      | (severity, _) :: others =>
          [[color w (fst (getSeverityAndColor severity)) (severityName severity);
            default "null" (rule_group rule) +:+ " (" +:+
            pretty (S (length others)) +:+ ")"]]
      end ++ summaryLines w table calls rest (S i)
  end.

(** Reporters with a file in the cache, and worlds whose source-map
    functions are given. *)
Module ExampleCache.

Definition worldWith (fs : string -> option string)
    (uri : string -> option string)
    (ctor : string -> option SourceMapConsumer) : World :=
  let w := Example.world fs (fun _ => []) in
  {| readFileSync := readFileSync w;
     stacktrace_parse := stacktrace_parse w;
     minimatch := minimatch w;
     getType := getType w;
     format := format w;
     createPatch := createPatch w;
     color := color w;
     config_indentation := config_indentation w;
     dataUriToBuffer := uri;
     newSourceMapConsumer := ctor;
     path_dirname := path_dirname w;
     path_resolve := path_resolve w |}.

Definition lines_external : list string :=
  ["throw 1;"; "//# sourceMappingURL=c.js.map"].

Definition lines_inline : list string :=
  ["throw 1;"; "//# sourceMappingURL=data:application/json;base64,e30="].

Definition cached (o : Options) (fileName : string) (lines : list string)
    (maps : gmap string (option SourceMapConsumer)) : Reporter :=
  {| options := o; files := []; indentation := 0;
     filesCache := {[ fileName := lines ]}; sourceMapCache := maps;
     stream := []; reads := []; parses := [] |}.

(** No file can be read. *)
Definition w_none : World := Example.world (fun _ => None) (fun _ => []).

(** The consumer rejects every map. *)
Definition w_reject : World := worldWith (fun _ => None) (fun s => Some s) (fun _ => None).

Definition timedOutFailure : Test :=
  {| titlePath := ["suite"; "slow"]; timedOut := true;
     err := {| message := "timeout of 2000ms exceeded"; stack := Example.stack1;
               actual := VUndefined; expected := VUndefined |} |}.

Definition flagOff : Options :=
  {| showSourceMapFiles := false; showJavascriptFiles := true;
     showFailsInBackOrder := false; hideNodeModulesStack := false;
     hideTestingLibraryDOM := true; stackExclude := None |}.

Definition noEnv : Env :=
  {| MOCHA_REPORTER_OPTS := None; MOCHA_REPORTER_STACK_EXCLUDE := None |}.

Definition actRule : Rule :=
  {| rule_test := actWarning; rule_group := Some "React: Act warnings"; rule_keep := true |}.

Definition actMessage : string :=
  "Warning: An update to Chart inside a test was not wrapped in act(...).".

End ExampleCache.

(** * Properties *)

(** ** Strings *)

Lemma append_cons (c : ascii) (s t : string) : String c s +:+ t = String c (s +:+ t).
Proof. reflexivity. Qed.

Lemma append_empty_r (s : string) : s +:+ "" = s.
Proof. induction s as [|c s IH]; [done|]. by rewrite append_cons, IH. Qed.

Lemma take_append (p u : string) : Js.take (Js.length p) (p +:+ u) = p.
Proof. induction p as [|c p IH]; simpl; [done|]. by rewrite IH. Qed.

Lemma drop_append (p u : string) : Js.drop (Js.length p) (p +:+ u) = u.
Proof. induction p as [|c p IH]; simpl; done. Qed.

Lemma take_drop (n : nat) (s : string) : Js.take n s +:+ Js.drop n s = s.
Proof.
  revert s. induction n as [|n IH]; intros [|c s]; simpl; try done.
  by rewrite ?append_cons, IH.
Qed.

Lemma substr2_0 (s : string) (n : nat) : Js.substr2 s 0 (Z.of_nat n) = Js.take n s.
Proof. unfold Js.substr2, Js.substr. simpl. by rewrite Nat2Z.id. Qed.

Lemma substr_nat (s : string) (n : nat) : Js.substr s (Z.of_nat n) = Js.drop n s.
Proof.
  unfold Js.substr. destruct (Z.ltb_spec (Z.of_nat n) 0); [lia|]. by rewrite Nat2Z.id.
Qed.

(** [s.substr(0, p.length) === p] says that [s] is [p] followed by
    [s.substr(p.length)]. *)
Lemma substr2_prefix (p s : string) :
  Js.substr2 s 0 (Z.of_nat (Js.length p)) = p <->
  exists u, s = p +:+ u.
Proof.
  rewrite substr2_0. split.
  - intros H. exists (Js.drop (Js.length p) s). by rewrite <- H at 1; rewrite take_drop.
  - intros [u ->]. apply take_append.
Qed.

(** ** C5: the marker scan *)

Lemma markerValue_Some (raw v : string) :
  markerValue raw = Some v <-> Js.trim raw = sourceMapComment +:+ v.
Proof.
  unfold markerValue. case_bool_decide as Hp.
  - apply substr2_prefix in Hp as [u Hu]. rewrite Hu, substr_nat, drop_append.
    split; [by intros [= ->]|]. by intros ->%(inj (String.app _)).
  - split; [done|]. intros Hv. destruct Hp. apply substr2_prefix. eauto.
Qed.

Lemma markerValue_None (raw : string) :
  markerValue raw = None <-> forall u, Js.trim raw <> sourceMapComment +:+ u.
Proof.
  split.
  - intros HN u Hu%markerValue_Some. congruence.
  - intros H. destruct (markerValue raw) as [v|] eqn:E; [|done].
    apply markerValue_Some in E. by destruct (H v).
Qed.

Lemma linesContainSourceMap_loop_step (lines : list string) (l : nat) :
  linesContainSourceMap_loop lines (S l) =
  match markerValue (lines !!! l) with
  | Some v => Some v
  | None => linesContainSourceMap_loop lines l
  end.
Proof.
  simpl. unfold markerValue. case_bool_decide as He; simpl.
  - rewrite He. by rewrite bool_decide_eq_false_2.
  - by destruct (bool_decide _).
Qed.

Lemma linesContainSourceMap_loop_Some (lines : list string) (l : nat) (v : string) :
  linesContainSourceMap_loop lines l = Some v <->
  exists i, (i < l)%nat /\ markerValue (lines !!! i) = Some v /\
            forall j, (i < j < l)%nat -> markerValue (lines !!! j) = None.
Proof.
  induction l as [|l IH].
  - simpl. split; [done|]. intros (i & ? & _). lia.
  - rewrite linesContainSourceMap_loop_step.
    destruct (markerValue (lines !!! l)) as [v'|] eqn:E.
    + split.
      * intros [= ->]. exists l. split_and!; [lia|done|]. intros j ?. lia.
      * intros (i & Hi & Hv & Hlater).
        destruct (decide (i = l)) as [->|Hne]; [congruence|].
        rewrite Hlater in E by lia. done.
    + rewrite IH. split.
      * intros (i & Hi & Hv & Hlater). exists i. split_and!; [lia|done|].
        intros j Hj. destruct (decide (j = l)) as [->|]; [done|]. apply Hlater. lia.
      * intros (i & Hi & Hv & Hlater).
        destruct (decide (i = l)) as [->|Hne]; [congruence|].
        exists i. split_and!; [lia|done|]. intros j Hj. apply Hlater. lia.
Qed.

Lemma linesContainSourceMap_loop_None (lines : list string) (l : nat) :
  linesContainSourceMap_loop lines l = None <->
  forall j, (j < l)%nat -> markerValue (lines !!! j) = None.
Proof.
  induction l as [|l IH].
  - simpl. split; [|done]. intros _ j ?. lia.
  - rewrite linesContainSourceMap_loop_step.
    destruct (markerValue (lines !!! l)) as [v'|] eqn:E.
    + split; [done|]. intros H. rewrite H in E by lia. done.
    + rewrite IH. split.
      * intros H j Hj. destruct (decide (j = l)) as [->|]; [done|]. apply H. lia.
      * intros H j Hj. apply H. lia.
Qed.

(** C5, as stated, fails: the scan does not stop at the last non-blank
    line. In the file below that line is [var a = 1;], which does not begin
    with the marker, and the value of the marker on the line before it is
    returned all the same. *)
Lemma linesContainSourceMap_looks_past_last_line :
  ~ (forall (lines : list string) (l : string),
       lastNonBlank lines = Some l ->
       Js.startsWith sourceMapComment l = false ->
       linesContainSourceMap lines = None).
Proof.
  intros H.
  specialize (H ["//# sourceMappingURL=x.map"; "var a = 1;"; ""] "var a = 1;" eq_refl eq_refl).
  discriminate H.
Qed.

(** C5, amended: the scan runs over the lines from the end and returns the
    value of the first line (so the last one in the file) whose trimmed text
    begins with [//# sourceMappingURL=], whatever non-blank lines follow it;
    it returns absent exactly when no line of the file begins with the
    marker. *)
Theorem linesContainSourceMap_last_marker_line (lines : list string) :
  (forall v : string,
     linesContainSourceMap lines = Some v <->
     exists (i : nat) (l : string),
       lines !! i = Some l /\ Js.trim l = sourceMapComment +:+ v /\
       forall (j : nat) (x u : string),
         (i < j)%nat -> lines !! j = Some x -> Js.trim x <> sourceMapComment +:+ u) /\
  (linesContainSourceMap lines = None <->
   forall (j : nat) (x u : string),
     lines !! j = Some x -> Js.trim x <> sourceMapComment +:+ u).
Proof.
  unfold linesContainSourceMap. split.
  - intros v. rewrite linesContainSourceMap_loop_Some. split.
    + intros (i & Hi & Hv & Hlater).
      destruct (lookup_lt_is_Some_2 lines i Hi) as [l Hl].
      exists i, l. split_and!; [done| |].
      * apply markerValue_Some. by rewrite <- (list_lookup_total_correct _ _ _ Hl).
      * intros j x u Hj Hx. apply markerValue_None.
        rewrite <- (list_lookup_total_correct _ _ _ Hx). apply Hlater.
        split; [done|]. by eapply lookup_lt_Some.
    + intros (i & l & Hl & Hv & Hlater). exists i. split_and!.
      * by eapply lookup_lt_Some.
      * rewrite (list_lookup_total_correct _ _ _ Hl). by apply markerValue_Some.
      * intros j [Hij Hj]. destruct (lookup_lt_is_Some_2 lines j Hj) as [x Hx].
        rewrite (list_lookup_total_correct _ _ _ Hx). apply markerValue_None.
        intros u. by eapply Hlater.
  - rewrite linesContainSourceMap_loop_None. split.
    + intros H j x u Hx. apply markerValue_None.
      rewrite <- (list_lookup_total_correct _ _ _ Hx). apply H. by eapply lookup_lt_Some.
    + intros H j Hj. destruct (lookup_lt_is_Some_2 lines j Hj) as [x Hx].
      rewrite (list_lookup_total_correct _ _ _ Hx). apply markerValue_None.
      intros u. by eapply H.
Qed.

(** ** The reporter record and the monad *)

Lemma set_stream_id (r : Reporter) : set_stream (stream r) r = r.
Proof. by destruct r. Qed.

Lemma set_stream_app_nil (r : Reporter) : set_stream (stream r ++ []) r = r.
Proof. rewrite app_nil_r. apply set_stream_id. Qed.

Lemma writeLine_eq (w : World) (arguments : list string) (r : Reporter) :
  writeLine w arguments r = (Done tt, set_stream (stream r ++ [written w r arguments]) r).
Proof. done. Qed.

Lemma forEach_app {A} (f : A -> Run unit) (xs ys : list A) (r : Reporter) :
  forEach f (xs ++ ys) r = bind (forEach f xs) (fun _ => forEach f ys) r.
Proof.
  revert r. induction xs as [|x xs IH]; intros r; simpl; [done|].
  unfold bind. destruct (f x r) as [[[]|e] r']; [|done]. rewrite IH. done.
Qed.

(** ** C7: the lines of a diff *)

Lemma writeDiff_line_eq (w : World) (escape : bool) (l : string) (r : Reporter) :
  writeDiff_line w escape l r =
  if isDiffLine l then writeLine w [diffStyled w escape l] r else (Done tt, r).
Proof.
  unfold writeDiff_line, isDiffLine, diffStyled, diffText, diffMarker.
  case_bool_decide as Hl.
  - destruct l; [done|discriminate Hl].
  - repeat case_bool_decide; simpl; done.
Qed.

Lemma forEach_writeDiff_line (w : World) (escape : bool) (ls : list string) (r : Reporter) :
  forEach (writeDiff_line w escape) ls r =
  (Done tt,
   set_stream (stream r ++
               List.map (fun l => written w r [diffStyled w escape l])
                        (List.filter isDiffLine ls)) r).
Proof.
  revert r. induction ls as [|l ls IH]; intros r; simpl.
  - unfold ret. by rewrite set_stream_app_nil.
  - unfold bind. rewrite writeDiff_line_eq. destruct (isDiffLine l); simpl.
    + rewrite IH. simpl. by rewrite <- app_assoc.
    + apply IH.
Qed.

(** Escaping does not touch the marker of a diff line. *)
Lemma diffText_marker (escape : bool) (l : string) :
  isDiffLine l = true -> diffMarker (diffText escape l) = diffMarker l.
Proof.
  unfold isDiffLine, diffText. destruct escape; [|done].
  destruct l as [|c l]; [done|]. unfold diffMarker at 1 2 3 5. simpl.
  intros H. repeat (apply orb_prop in H as [H|H]);
    apply bool_decide_eq_true_1 in H; injection H as ->; reflexivity.
Qed.

(** C7: the diff lines that [writeDiff] writes are, in order, the lines of
    the patch after its first four whose leading character is [+], [-] or a
    space, each one styled and indented; the four header lines are left
    out, and so is every line with another leading character. The text of
    each written diff line (escaped when asked for) begins with [+], [-] or
    a space. *)
Theorem writeDiff_lines (w : World) (actual expected : string) (escape : bool) (r : Reporter) :
  let patch := Js.split_lines (createPatch w "str" actual expected) in
  let kept := List.filter isDiffLine (List.skipn 4 patch) in
  writeDiff w actual expected escape r =
    (Done tt,
     set_stream
       (stream r ++
        [written w r [];
         written w r [color w "diff added" "+ expected" +:+ " " +:+
                      color w "diff removed" "- actual"];
         written w r []] ++
        List.map (fun l => written w r [diffStyled w escape l]) kept) r) /\
  Forall (fun l => diffMarker (diffText escape l) = "+" \/
                   diffMarker (diffText escape l) = "-" \/
                   diffMarker (diffText escape l) = " ") kept.
Proof.
  intros patch kept. split.
  - unfold writeDiff. fold patch. unfold bind. rewrite !writeLine_eq. simpl.
    rewrite forEach_writeDiff_line. simpl. f_equal. unfold written. simpl.
    by rewrite <- !app_assoc.
  - apply Forall_forall. intros l Hl.
    apply list_elem_of_In, filter_In in Hl as [_ Hl].
    rewrite (diffText_marker _ _ Hl). unfold isDiffLine in Hl.
    repeat (apply orb_prop in Hl as [Hl|Hl]); apply bool_decide_eq_true_1 in Hl; auto.
Qed.

(** ** C9: what is handed to the diff *)



(** ** C8: the snippet window *)

Lemma util_format_row (a l : string) : util_format ["%s | %s"; a; l] = a +:+ " | " +:+ l.
Proof. simpl. by rewrite append_empty_r. Qed.

Lemma fold_left_max (xs : list nat) (x : nat) :
  List.fold_left Nat.max xs x = max_list (x :: xs).
Proof.
  revert x. induction xs as [|y xs IH]; intros x; simpl; [lia|].
  rewrite IH. simpl. lia.
Qed.

Lemma pad_length (str : string) (len : nat) :
  Js.length (pad str len) = Nat.max len (Js.length str).
Proof.
  unfold pad, Js.length.
  assert (Hs : forall n, String.length (spaces n) = n) by (induction n; simpl; auto).
  assert (Ha : forall a b, String.length (a +:+ b) = (String.length a + String.length b)%nat).
  { induction a as [|c a IH]; intros b; simpl; [done|]. by rewrite IH. }
  rewrite Ha, Hs. lia.
Qed.

Lemma writeFilePosition_row_eq (w : World) (obj : list (Z * option string)) (pos : Pos)
    (width : nat) (k : Z) (r : Reporter) :
  writeFilePosition_row w obj pos width k r =
  if Js.truthy (objectGet obj k)
  then (Done tt, set_stream (stream r ++
          [indent w (indentation r) +:+ snippetRow w (objectGet obj k) pos width k +:+ Js.LF]) r)
  else (Done tt, r).
Proof.
  unfold writeFilePosition_row, snippetRow.
  destruct (objectGet obj k) as [l|]; simpl; [|done].
  case_bool_decide; simpl; [done|].
  case_bool_decide; rewrite writeLine_eq; unfold written; by rewrite util_format_row.
Qed.

Lemma forEach_writeFilePosition_row (w : World) (obj : list (Z * option string)) (pos : Pos)
    (width : nat) (keys : list Z) (r : Reporter) :
  forEach (writeFilePosition_row w obj pos width) keys r =
  (Done tt,
   set_stream (stream r ++
     List.map (fun k => indent w (indentation r) +:+
                        snippetRow w (objectGet obj k) pos width k +:+ Js.LF)
       (List.filter (fun k => Js.truthy (objectGet obj k)) keys)) r).
Proof.
  revert r. induction keys as [|k keys IH]; intros r; simpl.
  - unfold ret. by rewrite set_stream_app_nil.
  - unfold bind. rewrite writeFilePosition_row_eq.
    destruct (Js.truthy (objectGet obj k)); simpl.
    + rewrite IH. simpl. by rewrite <- app_assoc.
    + apply IH.
Qed.

Lemma arrayGet_negative (lines : list string) (i : Z) : i < 0 -> arrayGet lines i = None.
Proof. unfold arrayGet. intros H. by destruct (Z.ltb_spec i 0); [|lia]. Qed.

Ltac window_cases n :=
  unfold windowObject, objectEntries; simpl;
  destruct (Z.leb_spec 0 (n - 2)), (Z.ltb_spec (n - 2) 0); try lia;
  destruct (Z.leb_spec 0 (n - 1)), (Z.ltb_spec (n - 1) 0); try lia;
  destruct (Z.leb_spec 0 n), (Z.ltb_spec n 0); try lia; simpl.

Lemma windowObject_get (lines : list string) (n k : Z) :
  k ∈ windowIndices n -> objectGet (windowObject lines n) k = arrayGet lines k.
Proof.
  unfold windowIndices. rewrite !elem_of_cons, elem_of_nil.
  intros [->|[->|[->|[]]]];
    window_cases n; repeat (case_bool_decide; try lia); done.
Qed.

Lemma windowObject_rows (lines : list string) (n : Z) :
  List.filter (fun k => Js.truthy (objectGet (windowObject lines n) k))
              (List.map fst (windowObject lines n)) =
  snippetRows lines n.
Proof.
  assert (Hneg : forall i, i < 0 -> renderable lines i = false).
  { intros i Hi. unfold renderable. by rewrite arrayGet_negative. }
  assert (Hget : forall k, k ∈ windowIndices n ->
            Js.truthy (objectGet (windowObject lines n) k) = renderable lines k).
  { intros k Hk. by rewrite windowObject_get. }
  assert (Hin : Forall (fun k => k ∈ windowIndices n) (windowIndices n))
    by (apply Forall_forall; auto).
  unfold windowIndices at 2 in Hin.
  apply Forall_cons in Hin as [H2%Hget Hin].
  apply Forall_cons in Hin as [H1%Hget Hin].
  apply Forall_cons in Hin as [H0%Hget _].
  unfold snippetRows, windowIndices. revert H2 H1 H0.
  window_cases n; intros -> -> ->;
    rewrite ?(Hneg (n - 2)), ?(Hneg (n - 1)), ?(Hneg n) by lia;
    repeat (destruct (renderable lines _)); done.
Qed.

Lemma snippetRows_window (lines : list string) (n i : Z) :
  i ∈ snippetRows lines n -> i ∈ windowIndices n /\ renderable lines i = true.
Proof. unfold snippetRows. rewrite !list_elem_of_In, filter_In. tauto. Qed.

(** With no renderable row, [reduce] is called on an empty array and
    throws, after the first separator line has been written. *)
Lemma _writeStackFilePosition_empty (w : World) (lines : list string) (pos : Pos) (r : Reporter) :
  snippetRows lines (line pos) = [] ->
  _writeStackFilePosition w lines pos r =
  (Thrown (TypeError "Reduce of empty array with no initial value"),
   set_stream (stream r ++ [written w r []]) r).
Proof.
  intros Hrows. unfold _writeStackFilePosition. fold (windowObject lines (line pos)).
  unfold bind. rewrite writeLine_eq. unfold writeFilePosition, bind.
  by rewrite windowObject_rows, Hrows.
Qed.

Lemma _writeStackFilePosition_rows (w : World) (lines : list string) (pos : Pos) (r : Reporter) :
  let rows := snippetRows lines (line pos) in
  rows <> [] ->
  _writeStackFilePosition w lines pos r =
  (Done tt,
   set_stream
     (stream r ++
      [written w r []] ++
      List.map (fun i => indent w (indentation r) +:+
                         snippetRow w (arrayGet lines i) pos (snippetWidth rows) i +:+ Js.LF)
               rows ++
      [written w r []]) r).
Proof.
  intros rows Hrows. unfold _writeStackFilePosition. fold (windowObject lines (line pos)).
  unfold bind at 1. rewrite writeLine_eq. unfold bind at 1.
  unfold writeFilePosition, bind at 1. rewrite windowObject_rows. fold rows.
  destruct rows as [|i0 rows'] eqn:Erows; [done|]. simpl reduce_max. unfold ret at 1.
  rewrite fold_left_max. rewrite forEach_writeFilePosition_row.
  rewrite windowObject_rows. fold rows. rewrite Erows.
  assert (Hget : forall k, k ∈ i0 :: rows' ->
            objectGet (windowObject lines (line pos)) k = arrayGet lines k).
  { intros k Hk. apply windowObject_get. rewrite <- Erows in Hk.
    by apply snippetRows_window in Hk as [? _]. }
  rewrite writeLine_eq. unfold set_stream, written, snippetWidth. simpl.
  rewrite <- !app_assoc. simpl. do 4 f_equal.
  rewrite Hget by set_solver. f_equal. f_equal.
  apply map_ext_in. intros k Hk%list_elem_of_In.
  rewrite Hget by set_solver. done.
Qed.

(** C8, as stated, fails on empty lines: a line of the file that is the
    empty string is left out of the window like a missing one, the target
    line included. Around line 2 of the file [a], (empty), [c] two rows are
    written, for lines 1 and 3, and none for line 2. *)
Lemma _writeStackFilePosition_skips_empty_line :
  let w := Example.world Example.fs1 Example.frames1 in
  let r := Example.reporter Example.defaults [] in
  stream (snd (_writeStackFilePosition w ["a"; ""; "c"] {| line := 2; column := None |} r)) =
  [Js.LF; "1 | a" +:+ Js.LF; "3 | c" +:+ Js.LF; Js.LF].
Proof. reflexivity. Qed.

(** C8, amended: the window has a row for each of the target line, the line
    before it and the line after it that exists in the file and is not the
    empty string, in the order of the file (three rows at most; a neighbour
    that is missing at a file boundary, and any of the three that is empty,
    has no row). When there is such a row, the window is written between
    two separator lines, and every row starts with its line number,
    right-aligned by [pad] to the width of the longest line number among
    the rows. *)
Theorem _writeStackFilePosition_window (w : World) (lines : list string) (pos : Pos) (r : Reporter) :
  snippetRows lines (line pos) <> [] ->
  let rows := List.filter (fun i => Js.truthy (arrayGet lines i))
                          [line pos - 2; line pos - 1; line pos] in
  let width := max_list (List.map (fun i => Js.length (pretty (i + 1))) rows) in
  _writeStackFilePosition w lines pos r =
  (Done tt,
   set_stream
     (stream r ++
      [written w r []] ++
      List.map (fun i => indent w (indentation r) +:+
                         snippetRow w (arrayGet lines i) pos width i +:+ Js.LF) rows ++
      [written w r []]) r) /\
  (length rows <= 3)%nat /\
  Forall (fun i => Js.length (pad (pretty (i + 1)) width) = width) rows.
Proof.
  intros Hrows rows width. split_and!.
  - by apply _writeStackFilePosition_rows.
  - change rows with (snippetRows lines (line pos)). unfold snippetRows.
    apply List.filter_length_le.
  - apply Forall_forall. intros i Hi. rewrite pad_length.
    assert (Js.length (pretty (i + 1)%Z) <= width)%nat; [|lia].
    unfold width. apply max_list_elem_of_le.
    apply list_elem_of_In, in_map_iff. exists i. split; [done|]. by apply list_elem_of_In.
Qed.

(** The window at the first line of a file of two lines. *)
Lemma _writeStackFilePosition_window_witness :
  let w := Example.world Example.fs1 Example.frames1 in
  let r := Example.reporter Example.defaults [] in
  snippetRows ["a"; "b"] 1 <> [] /\
  _writeStackFilePosition w ["a"; "b"] {| line := 1; column := None |} r =
  (Done tt, set_stream [Js.LF; "1 | a" +:+ Js.LF; "2 | b" +:+ Js.LF; Js.LF] r).
Proof.
  intros w r.
  assert (H : snippetRows ["a"; "b"] 1 <> []) by (vm_compute; discriminate).
  split; [exact H|].
  exact (proj1 (_writeStackFilePosition_window w ["a"; "b"] {| line := 1; column := None |} r H)).
Defined.

(** ** Options and files are not written during the report *)

Create HintDb settings.

Lemma keeps_ret {A} (a : A) : keeps_settings (ret a).
Proof. by intros r. Qed.

Lemma keeps_throw {A} (e : Exn) : keeps_settings (@throw A e).
Proof. by intros r. Qed.

Lemma keeps_gets {A} (f : Reporter -> A) : keeps_settings (gets f).
Proof. by intros r. Qed.

Lemma keeps_modify (f : Reporter -> Reporter) :
  (forall r, options (f r) = options r /\ files (f r) = files r) ->
  keeps_settings (modify f).
Proof. intros H r. apply H. Qed.

Lemma keeps_bind {A B} (m : Run A) (k : A -> Run B) :
  keeps_settings m -> (forall a, keeps_settings (k a)) -> keeps_settings (bind m k).
Proof.
  intros Hm Hk r. unfold bind. specialize (Hm r).
  destruct (m r) as [[a|e] r']; simpl in *; [|done].
  destruct (Hk a r') as [-> ->]. done.
Qed.

Lemma keeps_when (b : bool) (m : Run unit) : keeps_settings m -> keeps_settings (when b m).
Proof. destruct b; [done|]. intros _. apply keeps_ret. Qed.

Lemma keeps_forEach {A} (f : A -> Run unit) (xs : list A) :
  (forall x, keeps_settings (f x)) -> keeps_settings (forEach f xs).
Proof.
  intros Hf. induction xs as [|x xs IH]; simpl; [apply keeps_ret|].
  apply keeps_bind; auto.
Qed.

Lemma keeps_writeLine (w : World) (arguments : list string) :
  keeps_settings (writeLine w arguments).
Proof. by apply keeps_modify. Qed.

#[local] Hint Resolve keeps_ret keeps_throw keeps_gets keeps_when keeps_forEach
  keeps_writeLine : settings.

Ltac keeps_step :=
  match goal with
  | |- keeps_settings (bind _ _) => apply keeps_bind; [|intros ?]
  | |- keeps_settings (modify _) => apply keeps_modify; by intros ?
  | |- keeps_settings (when _ _) => apply keeps_when
  | |- keeps_settings (forEach _ _) => apply keeps_forEach; intros ?
  | |- keeps_settings (match ?x with _ => _ end) => destruct x
  | |- keeps_settings _ => solve [auto with settings]
  end.

Lemma keeps_reduce_max (xs : list nat) : keeps_settings (reduce_max xs).
Proof. destruct xs; simpl; auto with settings. Qed.

Lemma keeps_writeStackFilePosition (w : World) (lines : list string) (pos : Pos) :
  keeps_settings (_writeStackFilePosition w lines pos).
Proof.
  unfold _writeStackFilePosition, writeFilePosition, writeFilePosition_row.
  repeat keeps_step. apply keeps_reduce_max.
Qed.

#[local] Hint Resolve keeps_writeStackFilePosition : settings.

Lemma keeps_writeStackLine (w : World) (l fileName : string) (lineNumber columnNumber : option Z) :
  keeps_settings (writeStackLine w l fileName lineNumber columnNumber).
Proof.
  unfold writeStackLine, writeOriginalPosition, parseInlineSourceMap,
    parseExternalSourceMap, indentation_incr, indentation_decr.
  repeat keeps_step.
Qed.

(** ** C10: the frame walk without [hideNodeModulesStack] *)

(** C10: when the option [hideNodeModulesStack] is false, the walk over the
    stack lines of a failure leaves the reporter as it found it: no line is
    written to the stream, of a project file or of any other, no file is
    read and no cache entry is made. *)
Theorem writeFailures_frames_hidden_flag_off (w : World) (parsedStack : list CallSite)
    (lines : list string) (i : nat) (isFilesBeforeTests isTestFiles : bool) (r : Reporter) :
  hideNodeModulesStack (options r) = false ->
  snd (writeFailures_frames w parsedStack lines i isFilesBeforeTests isTestFiles r) = r.
Proof.
  intros Hoff. revert i. induction lines as [|l lines IH]; intros i; simpl; [done|].
  destruct (parsedStack !! i) as [site|]; [|done].
  unfold bind, gets. rewrite Hoff. apply IH.
Qed.

(** The walk of a stack of two frames with the option off. *)
Lemma writeFailures_frames_hidden_flag_off_witness :
  let w := Example.world Example.fs1 Example.frames1 in
  let o := {| showSourceMapFiles := false; showJavascriptFiles := true;
              showFailsInBackOrder := false; hideNodeModulesStack := false;
              hideTestingLibraryDOM := true; stackExclude := None |} in
  let r := Example.reporter o ["/p/a.js"] in
  hideNodeModulesStack (options r) = false /\
  snd (writeFailures_frames w (Example.frames1 Example.stack1)
         ["at f (/p/a.js:2:7)"; "at g (/q/lib.js:5:1)"] 0 true true r) = r.
Proof.
  intros w o r. split; [reflexivity|].
  apply (writeFailures_frames_hidden_flag_off w); reflexivity.
Defined.

(** ** C4: which frames the walk renders *)

Lemma writeFailures_frames_shown (w : World) (parsedStack : list CallSite) (lines : list string) :
  forall (i : nat) (isFilesBeforeTests isTestFiles : bool) (r : Reporter),
  hideNodeModulesStack (options r) = true ->
  (length lines <= length (drop i parsedStack))%nat ->
  Forall (fun site => getFileName site <> None) (take (length lines) (drop i parsedStack)) ->
  writeFailures_frames w parsedStack lines i isFilesBeforeTests isTestFiles r =
  forEach (renderFrame w)
    (shownFrames w (options r) (files r) (zip lines (drop i parsedStack))
       (negb isFilesBeforeTests)) r.
Proof.
  induction lines as [|l lines IH]; intros i before isTest r Hon Hlen Hnames; [done|].
  destruct (drop i parsedStack) as [|site rest] eqn:Edrop; [simpl in Hlen; lia|].
  assert (Hi : parsedStack !! i = Some site).
  { pose proof (lookup_drop parsedStack i 0) as H.
    rewrite Nat.add_0_r in H. by rewrite <- H, Edrop. }
  assert (Erest : drop (S i) parsedStack = rest).
  { replace (S i) with (i + 1)%nat by lia. by rewrite <- drop_drop, Edrop. }
  simpl in Hlen, Hnames. apply Forall_cons in Hnames as [Hname Hnames].
  destruct (getFileName site) as [fileName|] eqn:Ename; [|congruence].
  cbn [writeFailures_frames zip zip_with shownFrames]. rewrite Hi, Ename.
  unfold bind at 1, gets at 1. rewrite Hon. cbn [default]. unfold id.
  destruct (Js.includes fileName "node_modules") eqn:Enm; cbn [negb].
  { rewrite IH; [by rewrite Erest|done|rewrite Erest; lia|by rewrite Erest]. }
  unfold bind at 1, gets at 1.
  assert (Hcond : forall t b,
    (t || b) && (negb (Js.truthy (stackExclude (options r))) ||
                 negb (minimatch w fileName (default "" (stackExclude (options r))))) =
    negb (negb (t || b) || frameExcluded w (options r) fileName)).
  { intros t b. unfold frameExcluded.
    destruct (t || b), (Js.truthy _), (minimatch _ _ _); done. }
  assert (Hnext : forall before' isTest' (shown : list (string * CallSite)),
    bind (when (negb (bool_decide (shown = [])))
                (writeStackLine w l fileName (getLineNumber site) (getColumnNumber site)))
         (fun _ => writeFailures_frames w parsedStack lines (S i) before' isTest') r =
    forEach (renderFrame w)
      ((if bool_decide (shown = []) then [] else [(l, site)]) ++
       shownFrames w (options r) (files r) (zip lines rest) (negb before')) r).
  { intros before' isTest' shown. rewrite forEach_app.
    assert (Hsame : forall r', options r' = options r -> files r' = files r ->
      writeFailures_frames w parsedStack lines (S i) before' isTest' r' =
      forEach (renderFrame w)
        (shownFrames w (options r) (files r) (zip lines rest) (negb before')) r').
    { intros r' Ho Hf. rewrite IH, Erest, Ho, Hf;
        [done|by rewrite Ho|rewrite Erest; lia|by rewrite Erest]. }
    destruct (bool_decide (shown = [])); simpl.
    - unfold bind, ret. by apply Hsame.
    - unfold renderFrame. simpl. rewrite Ename. simpl. unfold bind, ret.
      pose proof (keeps_writeStackLine w l fileName (getLineNumber site)
                    (getColumnNumber site) r) as [Ho Hf].
      destruct (writeStackLine _ _ _ _ _ r) as [[[]|e] r']; simpl in *; [|done].
      by apply Hsame. }
  case_bool_decide as Hproj.
  - rewrite Hcond. simpl.
    destruct (frameExcluded w (options r) fileName).
    + apply (Hnext false true []).
    + apply (Hnext false true [(l, site)]).
  - rewrite Hcond. simpl. destruct before; simpl.
    + destruct (frameExcluded w (options r) fileName).
      * apply (Hnext true false []).
      * apply (Hnext true false [(l, site)]).
    + apply (Hnext false false []).
Qed.

(** C4, as stated, fails: suppression is decided frame by frame and does not
    last. In the stack below the second frame is neither of a project file
    nor before the project files (the first frame is of one), and the third
    frame, of a project file, is rendered after it. No file can be read
    here, so that each rendered frame is its stack line alone. *)
Lemma writeFailures_frames_resumes_on_project_file :
  let w := Example.world (fun _ => None) (fun _ => []) in
  let r := Example.reporter Example.defaults ["project/a.js"; "project/c.js"] in
  stream (snd (writeFailures_frames w
                 [Example.site "project/a.js" 10 1; Example.site "lib/x.js" 5 1;
                  Example.site "project/c.js" 3 1]
                 ["at project/a.js:10:1"; "at lib/x.js:5:1"; "at project/c.js:3:1"]
                 0 true true r)) =
  ["at project/a.js:10:1" +:+ Js.LF; "at project/c.js:3:1" +:+ Js.LF].
Proof. vm_compute. reflexivity. Qed.

(** C4, amended: with [hideNodeModulesStack] on, file names present and a
    call site for every stack line, the walk renders, in order, exactly the
    frames of [shownFrames]: a frame of a [node_modules] file is dropped; a
    frame of a project file (a member of the file set) is rendered wherever
    it stands; any other frame is rendered only while no project file has
    been met, and is suppressed after that, which does not suppress the
    project frames that follow it; a frame whose file [stackExclude] matches
    is not rendered. In particular, for the stack [project/a.js:10],
    [node_modules/x/b.js:5], [project/c.js:3] and the file set
    [project/a.js], [project/c.js], frame 2 is dropped and frames 1 and 3
    are rendered. *)
Theorem writeFailures_frames_rendered (w : World) (parsedStack : list CallSite)
    (lines : list string) (r : Reporter) :
  hideNodeModulesStack (options r) = true ->
  (length lines <= length parsedStack)%nat ->
  Forall (fun site => getFileName site <> None) (take (length lines) parsedStack) ->
  writeFailures_frames w parsedStack lines 0 true true r =
    forEach (renderFrame w)
      (shownFrames w (options r) (files r) (zip lines parsedStack) false) r /\
  (forall (l1 l2 l3 : string) (s1 s2 s3 : CallSite),
     getFileName s1 = Some "project/a.js" ->
     getFileName s2 = Some "node_modules/x/b.js" ->
     getFileName s3 = Some "project/c.js" ->
     files r = ["project/a.js"; "project/c.js"] ->
     stackExclude (options r) = None ->
     writeFailures_frames w [s1; s2; s3] [l1; l2; l3] 0 true true r =
     forEach (renderFrame w) [(l1, s1); (l3, s3)] r).
Proof.
  intros Hon Hlen Hnames. split.
  - by apply (writeFailures_frames_shown w parsedStack lines 0 true true r).
  - intros l1 l2 l3 s1 s2 s3 H1 H2 H3 Hfiles Hex.
    rewrite (writeFailures_frames_shown w [s1; s2; s3] [l1; l2; l3] 0 true true r Hon);
      [|simpl; lia|].
    + simpl. unfold frameExcluded. rewrite H1, H2, H3, Hfiles, Hex. reflexivity.
    + simpl. repeat constructor; congruence.
Qed.

(** The scenario of C4 in a world where no file can be read. *)
Lemma writeFailures_frames_rendered_witness :
  let w := Example.world (fun _ => None) (fun _ => []) in
  let r := Example.reporter Example.defaults ["project/a.js"; "project/c.js"] in
  let s1 := {| getFileName := Some "project/a.js"; getLineNumber := Some 10; getColumnNumber := None |} in
  let s2 := {| getFileName := Some "node_modules/x/b.js"; getLineNumber := Some 5; getColumnNumber := None |} in
  let s3 := {| getFileName := Some "project/c.js"; getLineNumber := Some 3; getColumnNumber := None |} in
  hideNodeModulesStack (options r) = true /\
  (length ["at 1"; "at 2"; "at 3"] <= length [s1; s2; s3])%nat /\
  Forall (fun site => getFileName site <> None) (take 3 [s1; s2; s3]) /\
  writeFailures_frames w [s1; s2; s3] ["at 1"; "at 2"; "at 3"] 0 true true r =
  forEach (renderFrame w) [("at 1", s1); ("at 3", s3)] r.
Proof.
  intros w r s1 s2 s3.
  assert (Hon : hideNodeModulesStack (options r) = true) by reflexivity.
  assert (Hlen : (length ["at 1"; "at 2"; "at 3"] <= length [s1; s2; s3])%nat) by (simpl; lia).
  assert (Hnames : Forall (fun site => getFileName site <> None) (take 3 [s1; s2; s3]))
    by (repeat constructor; discriminate).
  split_and!; [exact Hon|exact Hlen|exact Hnames|].
  exact (proj2 (writeFailures_frames_rendered w [s1; s2; s3] ["at 1"; "at 2"; "at 3"] r
                  Hon Hlen Hnames)
           "at 1" "at 2" "at 3" s1 s2 s3 eq_refl eq_refl eq_refl eq_refl eq_refl).
Defined.

(** ** C3: a stack file that cannot be read *)

(** C3, as stated, fails: the failed read is not remembered. Two calls of
    [writeStackLine] for a file that cannot be read make two calls of
    [readFileSync]. *)
Lemma writeStackLine_unreadable_read_again :
  let w := Example.world (fun _ => None) (fun _ => []) in
  let r := Example.reporter Example.defaults [] in
  reads (snd (bind (writeStackLine w "at f (/gone.js:1:1)" "/gone.js" (Some 1) (Some 1))
                (fun _ => writeStackLine w "at g (/gone.js:2:1)" "/gone.js" (Some 2) (Some 1)) r)) =
  ["/gone.js"; "/gone.js"].
Proof. vm_compute. reflexivity. Qed.

(** C3, amended: an unreadable stack-target file is a soft failure that is
    not cached. A call of [writeStackLine] with a line number, for a path
    that has no entry in the file cache and cannot be read, returns
    normally, writes the raw stack line only, makes one read attempt and
    leaves both caches as they were; the path still has no entry, and a
    later call for it attempts the read again. *)
Theorem writeStackLine_unreadable (w : World) (l fileName : string) (lineNumber : Z)
    (columnNumber : option Z) (r : Reporter) :
  readFileSync w fileName = None ->
  filesCache r !! fileName = None ->
  let r' := set_reads (reads r ++ [fileName])
              (set_stream (stream r ++ [written w r [color w "error stack" l]]) r) in
  writeStackLine w l fileName (Some lineNumber) columnNumber r = (Done tt, r') /\
  filesCache r' = filesCache r /\
  sourceMapCache r' = sourceMapCache r /\
  (forall (l2 : string) (lineNumber2 : Z) (columnNumber2 : option Z),
     reads (snd (writeStackLine w l2 fileName (Some lineNumber2) columnNumber2 r')) =
     reads r ++ [fileName; fileName]).
Proof.
  intros Hfs Hcache r'.
  assert (Hcall : forall l1 n1 c1 r1, filesCache r1 !! fileName = None ->
    writeStackLine w l1 fileName (Some n1) c1 r1 =
    (Done tt, set_reads (reads r1 ++ [fileName])
                (set_stream (stream r1 ++ [written w r1 [color w "error stack" l1]]) r1))).
  { intros l1 n1 c1 r1 Hc.
    unfold writeStackLine. unfold bind at 1. rewrite writeLine_eq.
    unfold bind at 1, gets at 1. simpl. rewrite Hc.
    unfold bind at 1. unfold bind at 1, modify at 1. rewrite Hfs.
    unfold ret at 1. unfold bind at 1, gets at 1. simpl. rewrite Hc. done. }
  split_and!; [by apply Hcall|done|done|].
  intros l2 n2 c2. rewrite Hcall by done. simpl. by rewrite <- app_assoc.
Qed.

(** A first call for a file that cannot be read. *)
Lemma writeStackLine_unreadable_witness :
  let w := Example.world (fun _ => None) (fun _ => []) in
  let r := Example.reporter Example.defaults [] in
  readFileSync w "/gone.js" = None /\
  filesCache r !! "/gone.js" = None /\
  writeStackLine w "at f (/gone.js:1:1)" "/gone.js" (Some 1) (Some 1) r =
  (Done tt, set_reads ["/gone.js"] (set_stream ["at f (/gone.js:1:1)" +:+ Js.LF] r)).
Proof.
  intros w r.
  assert (Hfs : readFileSync w "/gone.js" = None) by reflexivity.
  assert (Hcache : filesCache r !! "/gone.js" = None) by reflexivity.
  split_and!; [exact Hfs|exact Hcache|].
  exact (proj1 (writeStackLine_unreadable w "at f (/gone.js:1:1)" "/gone.js" 1 (Some 1) r
                  Hfs Hcache)).
Defined.

(** ** C2: the source-map cache *)

(** C2 at its failing input: a file that ends in the inline source map
    [ExampleMap.mapText], a version 3 map that the URI of the file decodes
    to and that the consumer accepts, shown with [showSourceMapFiles]. Both
    calls of [writeStackLine] return. The first reads the file, parses the
    map and stores the consumer in the cache; the second finds the consumer
    there (the file is not read again) and parses the map of the same file
    once more, because only a cached [null] is reused. *)
Theorem writeStackLine_parses_cached_map_again :
  let r1 := snd (ExampleMap.call ExampleMap.r0) in
  let r2 := snd (ExampleMap.call r1) in
  linesContainSourceMap (Js.split_lines (default "" (ExampleMap.fs "/p/b.js"))) =
    Some ExampleMap.mapUri /\
  dataUriToBuffer ExampleMap.w ExampleMap.mapUri = Some ExampleMap.mapText /\
  newSourceMapConsumer ExampleMap.w ExampleMap.mapText = Some ExampleMap.consumer /\
  newSourceMapConsumer ExampleMap.w "{}" = None /\
  fst (ExampleMap.call ExampleMap.r0) = Done tt /\
  fst (ExampleMap.call r1) = Done tt /\
  sourceMapCache r1 !! "/p/b.js" = Some (Some ExampleMap.consumer) /\
  parses r1 = ["/p/b.js"] /\
  parses r2 = ["/p/b.js"; "/p/b.js"] /\
  reads r2 = ["/p/b.js"].
Proof. vm_compute. done. Qed.

(** ** C1: exceptions of the frame walk *)

(** A call site without a file name stops the walk, whatever the rest of the
    stack and the state of the reporter. *)
Lemma writeFailures_frames_null_fileName (w : World) (parsedStack : list CallSite)
    (l : string) (lines : list string) (i : nat) (isFilesBeforeTests isTestFiles : bool)
    (site : CallSite) (r : Reporter) :
  hideNodeModulesStack (options r) = true ->
  parsedStack !! i = Some site ->
  getFileName site = None ->
  writeFailures_frames w parsedStack (l :: lines) i isFilesBeforeTests isTestFiles r =
  (Thrown (TypeError "Cannot read property 'includes' of null"), r).
Proof.
  intros Hon Hsite Hname. simpl. rewrite Hsite. unfold bind, gets.
  by rewrite Hon, Hname.
Qed.

(** C1 at its failing inputs, two failures each. (1) The first frame of the
    first failure has no file name: [fileName.includes] throws, and neither
    the second frame of that failure nor the second failure is written.
    (2) The first frame of the first failure points past the end of its
    file, so that the window has no row: [reduce] throws after the stack
    line and a separator, and again nothing else is written. *)
Theorem writeFailures_exception_stops_report :
  let run ts := writeFailures ExampleThrow.w ts ExampleThrow.r0 in
  let first := run [ExampleThrow.failure "first" ExampleThrow.stack_native;
                    ExampleThrow.failure "second" Example.stack1] in
  let other := run [ExampleThrow.failure "first" ExampleThrow.stack_far;
                    ExampleThrow.failure "second" Example.stack1] in
  (fst first = Thrown (TypeError "Cannot read property 'includes' of null") /\
   stream (snd first) =
     ["------------------------------------------------------" +:+ Js.LF;
      "Failed tests" +:+ Js.LF;
      " " +:+ Js.LF;
      " 1) first" +:+ Js.LF;
      " " +:+ Js.LF;
      "   boom" +:+ Js.LF;
      "   " +:+ Js.LF]) /\
  (fst other = Thrown (TypeError "Reduce of empty array with no initial value") /\
   stream (snd other) =
     ["------------------------------------------------------" +:+ Js.LF;
      "Failed tests" +:+ Js.LF;
      " " +:+ Js.LF;
      " 1) first" +:+ Js.LF;
      " " +:+ Js.LF;
      "   boom" +:+ Js.LF;
      "   " +:+ Js.LF;
      "   at f (/p/a.js:99:1)" +:+ Js.LF;
      "   " +:+ Js.LF]).
Proof. vm_compute. done. Qed.

(** ** C6: stack lines and call sites *)

(** A stack line without a call site stops the walk. *)
Lemma writeFailures_frames_missing_site (w : World) (parsedStack : list CallSite)
    (l : string) (lines : list string) (i : nat) (isFilesBeforeTests isTestFiles : bool)
    (r : Reporter) :
  (length parsedStack <= i)%nat ->
  writeFailures_frames w parsedStack (l :: lines) i isFilesBeforeTests isTestFiles r =
  (Thrown (TypeError "Cannot read property 'getFileName' of undefined"), r).
Proof. intros Hi. simpl. by rewrite (lookup_ge_None_2 parsedStack i Hi). Qed.

(** C6 at its failing input, an error with an empty message: the message is
    found at index 0 of the stack, nothing is stripped, and the first line
    of the stack counts as a stack line. There are two non-empty stack lines
    for the one line that follows the first line of the stack, and for the
    one call site; the second stack line has no call site and reading its
    file name throws. *)
Theorem writeFailures_stack_lines_outnumber_call_sites :
  let e := ExampleEmptyMessage.e in
  let w := ExampleEmptyMessage.w in
  nonEmptyStackLines e = ["Error"; "at f (/p/a.js:2:7)"] /\
  length (tail (Js.split_lines (stack e))) = 1%nat /\
  length (stacktrace_parse w e) = 1%nat /\
  fst (writeFailures w [ExampleEmptyMessage.test]
         (Example.reporter Example.defaults ["/p/a.js"])) =
  Thrown (TypeError "Cannot read property 'getFileName' of undefined").
Proof. vm_compute. done. Qed.

(** * Further properties of the failure report *)

(** ** Reasoning on [moves] *)

Section Moves.

Context (R : Reporter -> Reporter -> Prop) `{!PreOrder R}.

Lemma moves_ret {A} (a : A) : moves R (ret a).
Proof. intros r. simpl. reflexivity. Qed.

Lemma moves_throw {A} (e : Exn) : moves R (@throw A e).
Proof. intros r. simpl. reflexivity. Qed.

Lemma moves_gets {A} (f : Reporter -> A) : moves R (gets f).
Proof. intros r. simpl. reflexivity. Qed.

Lemma moves_modify (f : Reporter -> Reporter) :
  (forall r, R r (f r)) -> moves R (modify f).
Proof. intros H r. apply H. Qed.

Lemma moves_bind {A B} (m : Run A) (k : A -> Run B) :
  moves R m -> (forall a, moves R (k a)) -> moves R (bind m k).
Proof.
  intros Hm Hk r. unfold bind. specialize (Hm r).
  destruct (m r) as [[a|e] r']; simpl in *; [|done].
  etrans; [exact Hm|apply Hk].
Qed.

Lemma moves_when (b : bool) (m : Run unit) : moves R m -> moves R (when b m).
Proof. destruct b; [done|]. intros _. apply moves_ret. Qed.

Lemma moves_forEach {A} (f : A -> Run unit) (xs : list A) :
  (forall x, moves R (f x)) -> moves R (forEach f xs).
Proof.
  intros Hf. induction xs as [|x xs IH]; simpl; [apply moves_ret|].
  apply moves_bind; auto.
Qed.

Lemma moves_reduce_max (xs : list nat) : moves R (reduce_max xs).
Proof. destruct xs; [apply moves_throw|apply moves_ret]. Qed.

(** Running [m] from a reporter that [r] is related to. *)
Lemma moves_from {A} (m : Run A) (r r1 : Reporter) :
  R r r1 -> moves R m -> R r (snd (m r1)).
Proof. intros H Hm. etrans; [exact H|apply Hm]. Qed.

End Moves.

(** One step of a proof of [moves]; [side] proves the condition of a
    [modify]. *)
Ltac moves_step side :=
  match goal with
  | |- moves _ (bind _ _) => apply moves_bind; [typeclasses eauto| |intros ?]
  | |- moves _ (modify _) => apply moves_modify; intros ?; side
  | |- moves _ (when _ _) => apply moves_when; [typeclasses eauto|]
  | |- moves _ (forEach _ _) => apply moves_forEach; [typeclasses eauto|intros ?]
  | |- moves _ (ret _) => apply moves_ret; typeclasses eauto
  | |- moves _ (throw _) => apply moves_throw; typeclasses eauto
  | |- moves _ (gets _) => apply moves_gets; typeclasses eauto
  | |- moves _ (reduce_max _) => apply moves_reduce_max; typeclasses eauto
  | |- moves _ (match ?x with _ => _ end) => destruct x
  end.

#[local] Instance quiet_preorder : PreOrder quiet.
Proof.
  split.
  - intros r. by split_and!.
  - intros a b c (? & ? & ? & ? & ? & ?) (? & ? & ? & ? & ? & ?).
    split_and!; congruence.
Qed.

#[local] Instance files_kept_preorder : PreOrder files_kept.
Proof.
  split.
  - intros r. unfold files_kept. done.
  - intros a b c ? ?. unfold files_kept in *. by etrans.
Qed.

Ltac quiet_side := by split_and!.
Ltac kept_side := unfold files_kept; simpl; done.

(** ** Computations that only write *)

Lemma moves_weaken (R R' : Reporter -> Reporter -> Prop) {A} (m : Run A) :
  (forall r r', R r r' -> R' r r') -> moves R m -> moves R' m.
Proof. intros HR Hm r. apply HR, Hm. Qed.

Lemma quiet_writeLine (w : World) (arguments : list string) :
  moves quiet (writeLine w arguments).
Proof. unfold writeLine. moves_step quiet_side. Qed.

Lemma quiet_writeStackFilePosition (w : World) (lines : list string) (pos : Pos) :
  moves quiet (_writeStackFilePosition w lines pos).
Proof.
  unfold _writeStackFilePosition, writeFilePosition, writeFilePosition_row.
  repeat first [apply quiet_writeLine | moves_step quiet_side].
Qed.

Lemma quiet_writeOriginalPosition (w : World) (smc : SourceMapConsumer) (pos : Pos) :
  moves quiet (writeOriginalPosition w smc pos).
Proof.
  unfold writeOriginalPosition, indentation_incr, indentation_decr. cbv zeta.
  repeat first [apply quiet_writeLine | apply quiet_writeStackFilePosition
               | moves_step quiet_side].
Qed.

Lemma quiet_writeDiff (w : World) (actual expected : string) (escape : bool) :
  moves quiet (writeDiff w actual expected escape).
Proof.
  unfold writeDiff, writeDiff_line. cbv zeta.
  repeat first [apply quiet_writeLine | moves_step quiet_side].
Qed.

Lemma quiet_files_kept (r r' : Reporter) : quiet r r' -> files_kept r r'.
Proof. intros (_ & _ & Hf & _). unfold files_kept. by rewrite Hf. Qed.

(** A computation that only writes, followed by another: the cases of the
    result. *)
Lemma bind_quiet {A B} (m : Run A) (k : A -> Run B)
    (P : Outcome B * Reporter -> Prop) (r : Reporter) :
  moves quiet m ->
  (forall e r', quiet r r' -> P (Thrown e, r')) ->
  (forall a r', quiet r r' -> P (k a r')) ->
  P (bind m k r).
Proof.
  intros Hm He Ha. unfold bind. specialize (Hm r).
  destruct (m r) as [[a|e] r']; simpl in Hm; auto.
Qed.

(** ** The file cache *)

Lemma kept_writeStackLine (w : World) (l fileName : string) (lineNumber columnNumber : option Z) :
  moves files_kept (writeStackLine w l fileName lineNumber columnNumber).
Proof.
  assert (Hq : forall {A} (m : Run A), moves quiet m -> moves files_kept m).
  { intros A m. apply moves_weaken, quiet_files_kept. }
  intros r. unfold writeStackLine. unfold bind at 1. rewrite writeLine_eq.
  destruct lineNumber as [lineNumber|]; [|by unfold files_kept].
  unfold bind at 1, gets at 1. cbn [filesCache set_stream].
  set (r1 := set_stream _ r).
  assert (H1 : files_kept r r1) by by unfold files_kept.
  match goal with |- files_kept r (snd (bind _ ?k r1)) => set (rest := k) end.
  assert (Hrest : moves files_kept (rest tt)).
  { subst rest. unfold parseInlineSourceMap, parseExternalSourceMap. cbv zeta.
    repeat first [apply Hq, quiet_writeStackFilePosition
                 | apply Hq, quiet_writeOriginalPosition
                 | moves_step kept_side]. }
  destruct (filesCache r !! fileName) as [cached|] eqn:Ecache.
  - unfold bind, ret. by apply (moves_from files_kept).
  - unfold bind at 1. unfold bind at 1, modify at 1.
    destruct (readFileSync w fileName) as [content|].
    + unfold modify. apply (moves_from files_kept); [|done].
      unfold files_kept. cbn. by apply insert_subseteq.
    + unfold ret. apply (moves_from files_kept); [|done]. by unfold files_kept.
Qed.

Lemma kept_writeFailures_frames (w : World) (parsedStack : list CallSite) (lines : list string) :
  forall (i : nat) (isFilesBeforeTests isTestFiles : bool),
  moves files_kept (writeFailures_frames w parsedStack lines i isFilesBeforeTests isTestFiles).
Proof.
  induction lines as [|l lines IH]; intros i before isTest; simpl.
  - moves_step kept_side.
  - repeat first [apply IH | apply kept_writeStackLine | moves_step kept_side].
Qed.

Lemma kept_writeFailures_test (w : World) (n : nat) (test : Test) (i : nat) :
  moves files_kept (writeFailures_test w n test i).
Proof.
  assert (Hq : forall {A} (m : Run A), moves quiet m -> moves files_kept m).
  { intros A m. apply moves_weaken, quiet_files_kept. }
  unfold writeFailures_test, printErrorMessage, writeFailures_diff,
    indentation_incr, indentation_decr. cbv zeta.
  repeat first [apply Hq, quiet_writeLine | apply Hq, quiet_writeDiff
               | apply kept_writeFailures_frames | moves_step kept_side].
Qed.

Lemma kept_writeFailures_each (w : World) (n : nat) (failures : list Test) :
  forall i : nat, moves files_kept (writeFailures_each w n failures i).
Proof.
  induction failures as [|test failures IH]; intros i; simpl.
  - moves_step kept_side.
  - moves_step kept_side; [apply kept_writeFailures_test|apply IH].
Qed.

(** X2: an entry of the file cache is never dropped or replaced during the
    report: a file that is cached when [writeFailures] starts, or at any
    point of it, has the same lines in the cache at the end, whether the
    report completes or throws. *)
Theorem writeFailures_keeps_cached_files (w : World) (failures : list Test) (r : Reporter)
    (fileName : string) (lines : list string) :
  filesCache r !! fileName = Some lines ->
  filesCache (snd (writeFailures w failures r)) !! fileName = Some lines.
Proof.
  assert (Hq : forall {A} (m : Run A), moves quiet m -> moves files_kept m).
  { intros A m. apply moves_weaken, quiet_files_kept. }
  intros Hcache.
  assert (Hkept : moves files_kept (writeFailures w failures)).
  { unfold writeFailures, indentation_incr, indentation_decr. cbv zeta.
    repeat first [apply Hq, quiet_writeLine | apply kept_writeFailures_each
                 | moves_step kept_side]. }
  specialize (Hkept r). unfold files_kept in Hkept.
  by eapply lookup_weaken.
Qed.

#[local] Instance reads_only_preorder (p : string) : PreOrder (reads_only p).
Proof.
  split.
  - intros r. split; [done|]. exists []. by rewrite app_nil_r.
  - intros a b c [Hf1 (x1 & Hr1 & Hx1)] [Hf2 (x2 & Hr2 & Hx2)]. split; [congruence|].
    exists (x1 ++ x2). rewrite Hr2, Hr1, app_assoc. split; [done|].
    by apply Forall_app.
Qed.

Lemma quiet_reads_only (p : string) (r r' : Reporter) : quiet r r' -> reads_only p r r'.
Proof.
  intros (_ & _ & Hf & _ & Hr & _). split; [done|].
  exists []. by rewrite app_nil_r.
Qed.

Ltac reads_side :=
  split; [done|]; simpl;
  first [ by exists []; rewrite app_nil_r
        | by eexists [_]; split; [reflexivity|repeat constructor] ].

(** The state of [writeStackLine] when it has the lines of a cached file at
    hand: the stack line is written and the file is not read. *)
Lemma writeStackLine_cached_prefix (w : World) (l fileName : string) (lineNumber : Z)
    (columnNumber : option Z) (r : Reporter) (lines : list string) :
  filesCache r !! fileName = Some lines ->
  exists rest : Run unit,
    writeStackLine w l fileName (Some lineNumber) columnNumber r =
    rest (set_stream (stream r ++ [written w r [color w "error stack" l]]) r) /\
    rest =
    (let pos := {| line := lineNumber;
                   column := if truthyZ columnNumber then columnNumber else None |} in
     let sm := linesContainSourceMap lines in
     opts <- gets options ;;
     when (showJavascriptFiles opts || negb (Js.truthy sm))
       (_writeStackFilePosition w lines pos) ;;
     when (Js.truthy sm && showSourceMapFiles opts)
       (let sm := default "" sm in
        smc <- gets (fun r => sourceMapCache r !! fileName) ;;
        smc <-
          match smc with
          | Some None => ret None
          | _ =>
             inline <- parseInlineSourceMap w fileName sm ;;
             smc <- match inline with
                    | Some c => ret (Some c)
                    | None => parseExternalSourceMap w fileName sm
                    end ;;
             modify (fun r => set_sourceMapCache (<[fileName := smc]> (sourceMapCache r)) r) ;;
             ret smc
          end ;;
        match smc with
        | Some smc => writeOriginalPosition w smc pos
        | None => ret tt
        end))%run.
Proof.
  intros Hcache. eexists. split; [|reflexivity].
  unfold writeStackLine. unfold bind at 1. rewrite writeLine_eq.
  unfold bind at 1, gets at 1. cbn [filesCache set_stream]. rewrite Hcache.
  unfold bind at 1, ret at 1. unfold bind at 1, gets at 1.
  cbn [filesCache set_stream]. rewrite Hcache. reflexivity.
Qed.

(** X3: a call of [writeStackLine] for a file that is in the file cache
    never reads that file again: the cache is as before, and the only read
    the call can make is of the external source map that the marker of the
    file names. *)
Theorem writeStackLine_cached_file_not_read (w : World) (l fileName : string)
    (lineNumber columnNumber : option Z) (r : Reporter) (lines : list string) :
  filesCache r !! fileName = Some lines ->
  let r' := snd (writeStackLine w l fileName lineNumber columnNumber r) in
  filesCache r' = filesCache r /\
  exists extra : list string,
    reads r' = reads r ++ extra /\
    Forall (fun q => q = externalMapPath w fileName
                           (default "" (linesContainSourceMap lines))) extra.
Proof.
  intros Hcache r'. subst r'.
  set (p := externalMapPath w fileName (default "" (linesContainSourceMap lines))).
  change (reads_only p r (snd (writeStackLine w l fileName lineNumber columnNumber r))).
  destruct lineNumber as [lineNumber|].
  - destruct (writeStackLine_cached_prefix w l fileName lineNumber columnNumber r lines Hcache)
      as (rest & -> & ->).
    apply (moves_from (reads_only p)).
    { split; [done|]. exists []. by rewrite app_nil_r. }
    assert (Hq : forall {A} (m : Run A), moves quiet m -> moves (reads_only p) m).
    { intros A m. apply moves_weaken, quiet_reads_only. }
    unfold parseInlineSourceMap, parseExternalSourceMap. cbv zeta.
    repeat first [apply Hq, quiet_writeStackFilePosition
                 | apply Hq, quiet_writeOriginalPosition
                 | moves_step reads_side].
  - unfold writeStackLine, bind. rewrite writeLine_eq. simpl.
    split; [done|]. exists []. by rewrite app_nil_r.
Qed.

(** ** The source-map cache *)

(** X4: a cached [null] is reused. When the file is in the file cache and
    the source-map cache holds [null] for it, a call of [writeStackLine]
    reads no file, parses no map and leaves both caches as they are; it can
    only write to the stream. *)
Theorem writeStackLine_cached_null_reused (w : World) (l fileName : string)
    (lineNumber columnNumber : option Z) (r : Reporter) (lines : list string) :
  filesCache r !! fileName = Some lines ->
  sourceMapCache r !! fileName = Some None ->
  let r' := snd (writeStackLine w l fileName lineNumber columnNumber r) in
  reads r' = reads r /\ parses r' = parses r /\
  filesCache r' = filesCache r /\ sourceMapCache r' = sourceMapCache r.
Proof.
  intros Hcache Hnull r'. subst r'.
  enough (Hq : quiet r (snd (writeStackLine w l fileName lineNumber columnNumber r))).
  { destruct Hq as (_ & _ & ? & ? & ? & ?). by split_and!. }
  destruct lineNumber as [lineNumber|].
  - destruct (writeStackLine_cached_prefix w l fileName lineNumber columnNumber r lines Hcache)
      as (rest & -> & ->).
    set (r1 := set_stream _ r). assert (H1 : quiet r r1) by by split_and!.
    cbv zeta. unfold bind at 1, gets at 1.
    apply bind_quiet.
    { apply moves_when; [apply _|]. apply quiet_writeStackFilePosition. }
    { intros e r2 H2. simpl. by etrans. }
    intros [] r2 H2.
    assert (H12 : quiet r r2) by by etrans.
    destruct (Js.truthy (linesContainSourceMap lines) && showSourceMapFiles (options r1));
      [|by simpl].
    cbn [when]. unfold bind at 1, gets at 1.
    pose proof H12 as (_ & _ & _ & Hsm & _). rewrite Hsm, Hnull.
    unfold bind, ret. simpl. exact H12.
  - unfold writeStackLine, bind. rewrite writeLine_eq. simpl. by split_and!.
Qed.

(** X5: an external source map that cannot be read, or that the consumer
    rejects, is a soft failure that is remembered. For a cached file whose
    marker is no data URI, shown with its original source only, the call
    returns normally, writes the raw stack line alone, makes one read
    attempt of the map's path and stores [null] for the file in the
    source-map cache. *)
Theorem writeStackLine_external_map_failure (w : World) (l fileName : string)
    (lineNumber : Z) (columnNumber : option Z) (r : Reporter) (lines : list string)
    (sm : string) :
  filesCache r !! fileName = Some lines ->
  linesContainSourceMap lines = Some sm ->
  sm <> "" ->
  Js.substr2 sm 0 5 <> "data:" ->
  showSourceMapFiles (options r) = true ->
  showJavascriptFiles (options r) = false ->
  sourceMapCache r !! fileName <> Some None ->
  (readFileSync w (externalMapPath w fileName sm) = None \/
   exists text, readFileSync w (externalMapPath w fileName sm) = Some text /\
                newSourceMapConsumer w text = None) ->
  exists r',
    writeStackLine w l fileName (Some lineNumber) columnNumber r = (Done tt, r') /\
    sourceMapCache r' = <[fileName := None]> (sourceMapCache r) /\
    reads r' = reads r ++ [externalMapPath w fileName sm] /\
    stream r' = stream r ++ [written w r [color w "error stack" l]] /\
    filesCache r' = filesCache r.
Proof.
  intros Hcache Hsm Hne Hnodata HshowSM HshowJS Hnotnull Hfail.
  destruct (writeStackLine_cached_prefix w l fileName lineNumber columnNumber r lines Hcache)
    as (rest & -> & ->).
  cbv zeta. unfold bind at 1, gets at 1. cbn [options set_stream].
  rewrite Hsm, HshowSM, HshowJS.
  assert (Htruthy : Js.truthy (Some sm) = true).
  { simpl. by rewrite bool_decide_eq_false_2. }
  rewrite Htruthy. cbn [negb orb andb when default]. unfold id.
  unfold bind at 1, ret at 1. unfold bind at 1, gets at 1. cbn [sourceMapCache set_stream].
  assert (Hparse :
    forall r1 : Reporter, reads r1 = reads r -> sourceMapCache r1 = sourceMapCache r ->
      exists r2,
        bind (parseInlineSourceMap w fileName sm)
          (fun inline => match inline with
                         | Some c => ret (Some c)
                         | None => parseExternalSourceMap w fileName sm
                         end) r1 = (Done None, r2) /\
        sourceMapCache r2 = sourceMapCache r /\
        reads r2 = reads r ++ [externalMapPath w fileName sm] /\
        stream r2 = stream r1 /\ filesCache r2 = filesCache r1).
  { intros r1 Hr Hs. unfold parseInlineSourceMap.
    rewrite bool_decide_eq_false_2 by done. unfold bind at 1, ret at 1.
    unfold parseExternalSourceMap. fold (externalMapPath w fileName sm).
    unfold bind at 1, modify at 1.
    destruct Hfail as [->|(text & -> & Hctor)].
    - eexists. split; [reflexivity|]. simpl. by rewrite Hr.
    - unfold bind at 1, modify at 1. rewrite Hctor.
      eexists. split; [reflexivity|]. simpl. by rewrite Hr. }
  set (r1 := set_stream _ r).
  destruct (Hparse r1 eq_refl eq_refl) as (r2 & Hrun & Hs2 & Hr2 & Hst2 & Hf2).
  unfold bind in Hrun |- *.
  destruct (sourceMapCache r !! fileName) as [[c|]|]; [|done|].
  all: destruct (parseInlineSourceMap w fileName sm r1) as [[[c'|]|e] r3];
    try discriminate Hrun.
  all: rewrite Hrun; unfold modify, ret; simpl;
    eexists; split; [reflexivity|]; simpl; by rewrite Hs2, Hr2, Hst2, Hf2.
Qed.

(** X6: an inline source map that cannot be decoded or parsed is not a soft
    failure. For a cached file whose marker is a data URI, shown with its
    original source only, an exception of [dataUriToBuffer] or of the
    consumer's constructor leaves [writeStackLine] after the raw stack line
    has been written, and nothing is stored in the source-map cache, so that
    the next call for the file meets the same exception. *)
Theorem writeStackLine_inline_map_failure_throws (w : World) (l fileName : string)
    (lineNumber : Z) (columnNumber : option Z) (r : Reporter) (lines : list string)
    (sm : string) :
  filesCache r !! fileName = Some lines ->
  linesContainSourceMap lines = Some sm ->
  Js.substr2 sm 0 5 = "data:" ->
  showSourceMapFiles (options r) = true ->
  showJavascriptFiles (options r) = false ->
  sourceMapCache r !! fileName <> Some None ->
  (dataUriToBuffer w sm = None \/
   exists buf, dataUriToBuffer w sm = Some buf /\ newSourceMapConsumer w buf = None) ->
  exists e r',
    writeStackLine w l fileName (Some lineNumber) columnNumber r = (Thrown e, r') /\
    (e = LibraryError "data-uri-to-buffer" \/ e = LibraryError "source-map") /\
    stream r' = stream r ++ [written w r [color w "error stack" l]] /\
    sourceMapCache r' = sourceMapCache r /\
    filesCache r' = filesCache r.
Proof.
  intros Hcache Hsm Hdata HshowSM HshowJS Hnotnull Hfail.
  destruct (writeStackLine_cached_prefix w l fileName lineNumber columnNumber r lines Hcache)
    as (rest & -> & ->).
  cbv zeta. unfold bind at 1, gets at 1. cbn [options set_stream].
  rewrite Hsm, HshowSM, HshowJS.
  assert (Htruthy : Js.truthy (Some sm) = true).
  { simpl. rewrite bool_decide_eq_false_2; [done|]. intros ->. discriminate Hdata. }
  rewrite Htruthy. cbn [negb orb andb when default]. unfold id.
  unfold bind at 1, ret at 1. unfold bind at 1, gets at 1. cbn [sourceMapCache set_stream].
  set (r1 := set_stream _ r).
  assert (Hparse : exists e r2,
    parseInlineSourceMap w fileName sm r1 = (Thrown e, r2) /\
    (e = LibraryError "data-uri-to-buffer" \/ e = LibraryError "source-map") /\
    stream r2 = stream r1 /\ sourceMapCache r2 = sourceMapCache r /\
    filesCache r2 = filesCache r).
  { unfold parseInlineSourceMap. rewrite bool_decide_eq_true_2 by done.
    destruct Hfail as [->|(buf & -> & Hctor)].
    - eexists _, _. split; [reflexivity|]. by split_and!; [left|..].
    - unfold bind, modify. rewrite Hctor.
      eexists _, _. split; [reflexivity|]. by split_and!; [right|..]. }
  destruct Hparse as (e & r2 & Hrun & He & Hst & Hs & Hf).
  exists e, r2.
  destruct (sourceMapCache r !! fileName) as [[c|]|]; [|done|].
  all: unfold bind; rewrite Hrun; by split_and!.
Qed.

(** ** The indentation counter *)

Lemma lands_ret {A} (a : A) (n : nat) : lands n n (ret a).
Proof. intros r a' r' Hn H. by inversion H; subst. Qed.

Lemma lands_throw {A} (e : Exn) (n k : nat) : lands n k (@throw A e).
Proof. intros r a r' _ H. discriminate H. Qed.

Lemma lands_gets {A} (f : Reporter -> A) (n : nat) : lands n n (gets f).
Proof. intros r a' r' Hn H. by inversion H; subst. Qed.

Lemma lands_modify (f : Reporter -> Reporter) (n : nat) :
  (forall r, indentation (f r) = indentation r) -> lands n n (modify f).
Proof. intros Hf r a r' Hn H. inversion H; subst. apply Hf. Qed.

Lemma lands_incr (n : nat) : lands n (S n) indentation_incr.
Proof. intros r a r' Hn H. inversion H; subst. done. Qed.

Lemma lands_decr (n : nat) : lands (S n) n indentation_decr.
Proof. intros r a r' Hn H. inversion H; subst. simpl. by rewrite Hn. Qed.

Lemma lands_bind {A B} (m : Run A) (f : A -> Run B) (n j k : nat) :
  lands n j m -> (forall a, lands j k (f a)) -> lands n k (bind m f).
Proof.
  intros Hm Hf r b r' Hn. unfold bind.
  destruct (m r) as [[a|e] r1] eqn:Em; [|done].
  intros Hk. eapply Hf; [|exact Hk]. by eapply Hm.
Qed.

Lemma lands_when (b : bool) (m : Run unit) (n : nat) :
  lands n n m -> lands n n (when b m).
Proof. destruct b; [done|]. intros _. apply lands_ret. Qed.

Lemma lands_forEach {A} (f : A -> Run unit) (xs : list A) (n : nat) :
  (forall x, lands n n (f x)) -> lands n n (forEach f xs).
Proof.
  intros Hf. induction xs as [|x xs IH]; simpl; [apply lands_ret|].
  eapply lands_bind; [apply Hf|intros _; apply IH].
Qed.

Lemma lands_writeLine (w : World) (arguments : list string) (n : nat) :
  lands n n (writeLine w arguments).
Proof. by apply lands_modify. Qed.

Ltac lands_step :=
  match goal with
  | |- lands _ _ (bind _ _) => eapply lands_bind; [|intros ?]
  | |- lands _ _ indentation_incr => apply lands_incr
  | |- lands _ _ indentation_decr => apply lands_decr
  | |- lands _ _ (writeLine _ _) => apply lands_writeLine
  | |- lands _ _ (modify _) => apply lands_modify; by intros ?
  | |- lands _ _ (when _ _) => apply lands_when
  | |- lands _ _ (forEach _ _) => apply lands_forEach; intros ?
  | |- lands _ _ (ret _) => apply lands_ret
  | |- lands _ _ (throw _) => apply lands_throw
  | |- lands _ _ (gets _) => apply lands_gets
  | |- lands _ _ (reduce_max ?xs) => destruct xs; [apply lands_throw|apply lands_ret]
  | |- lands _ _ (match ?x with _ => _ end) => destruct x
  end.

Lemma lands_writeStackFilePosition (w : World) (lines : list string) (pos : Pos) (n : nat) :
  lands n n (_writeStackFilePosition w lines pos).
Proof.
  unfold _writeStackFilePosition, writeFilePosition, writeFilePosition_row.
  repeat lands_step.
Qed.

Lemma lands_writeOriginalPosition (w : World) (smc : SourceMapConsumer) (pos : Pos) (n : nat) :
  lands n n (writeOriginalPosition w smc pos).
Proof.
  unfold writeOriginalPosition.
  destruct (originalPositionFor smc pos) as [[[source sline] scolumn]|]; [|apply lands_ret].
  destruct (negb _); [|apply lands_ret].
  destruct (Js.truthy _); [|apply lands_ret].
  repeat first [apply lands_writeStackFilePosition | lands_step].
Qed.

Lemma lands_writeStackLine (w : World) (l fileName : string)
    (lineNumber columnNumber : option Z) (n : nat) :
  lands n n (writeStackLine w l fileName lineNumber columnNumber).
Proof.
  unfold writeStackLine, parseInlineSourceMap, parseExternalSourceMap. cbv zeta.
  repeat first [apply lands_writeStackFilePosition | apply lands_writeOriginalPosition
               | lands_step].
Qed.

Lemma lands_writeFailures_frames (w : World) (parsedStack : list CallSite)
    (lines : list string) (n : nat) :
  forall (i : nat) (isFilesBeforeTests isTestFiles : bool),
  lands n n (writeFailures_frames w parsedStack lines i isFilesBeforeTests isTestFiles).
Proof.
  induction lines as [|l lines IH]; intros i before isTest; simpl.
  - apply lands_ret.
  - repeat first [apply IH | apply lands_writeStackLine | lands_step].
Qed.

Lemma lands_writeDiff (w : World) (actual expected : string) (escape : bool) (n : nat) :
  lands n n (writeDiff w actual expected escape).
Proof. unfold writeDiff, writeDiff_line. cbv zeta. repeat lands_step. Qed.

Lemma lands_writeFailures_test (w : World) (total : nat) (test : Test) (i n : nat) :
  lands n n (writeFailures_test w total test i).
Proof.
  unfold writeFailures_test, printErrorMessage, writeFailures_diff. cbv zeta.
  lands_step; [lands_step|].
  do 3 (lands_step; [lands_step|]).
  lands_step; [apply lands_incr|].
  lands_step.
  { lands_step; [lands_step|]. destruct (_ && _); repeat lands_step. }
  lands_step; [|apply lands_decr].
  apply lands_when.
  repeat first [apply lands_writeDiff | apply lands_writeFailures_frames | lands_step].
Qed.

Lemma lands_writeFailures_each (w : World) (total : nat) (failures : list Test) (n : nat) :
  forall i : nat, lands n n (writeFailures_each w total failures i).
Proof.
  induction failures as [|test failures IH]; intros i; simpl.
  - apply lands_ret.
  - eapply lands_bind; [apply lands_writeFailures_test|intros _; apply IH].
Qed.

(** X7: when [writeFailures] returns normally, the indentation counter is
    back at the value it had on entry, whatever was reported in between. *)
Theorem writeFailures_restores_indentation (w : World) (failures : list Test)
    (r r' : Reporter) :
  writeFailures w failures r = (Done tt, r') ->
  indentation r' = indentation r.
Proof.
  intros Hrun.
  assert (H : lands (indentation r) (indentation r) (writeFailures w failures)).
  { unfold writeFailures. cbv zeta.
    do 2 (lands_step; [lands_step|]).
    lands_step; [apply lands_incr|].
    lands_step; [lands_step|].
    lands_step; [apply lands_writeFailures_each|apply lands_decr]. }
  by eapply H.
Qed.

(** ** The message of a failure *)

Lemma forEach_writeLine {A} (w : World) (g : A -> list string) (xs : list A) (r : Reporter) :
  forEach (fun x => writeLine w (g x)) xs r =
  (Done tt, set_stream (stream r ++ List.map (fun x => written w r (g x)) xs) r).
Proof.
  revert r. induction xs as [|x xs IH]; intros r; simpl.
  - unfold ret. by rewrite set_stream_app_nil.
  - unfold bind. rewrite writeLine_eq, IH. simpl. by rewrite <- app_assoc.
Qed.

Lemma printErrorMessage_eq (w : World) (msg : string) (r : Reporter) :
  printErrorMessage w msg r =
  (Done tt,
   set_stream
     (stream r ++
      List.map (fun l => written w r [color w "error message" "%s"; l])
        (shownMessageLines (options r) msg)) r).
Proof.
  unfold printErrorMessage, shownMessageLines. unfold bind at 1, gets at 1.
  destruct (hideTestingLibraryDOM (options r) && _).
  - by rewrite writeLine_eq.
  - apply forEach_writeLine.
Qed.

(** X8: [printErrorMessage] never throws and writes one line for each line
    of the message, in order; when [hideTestingLibraryDOM] is on and the
    message contains [Unable to find an element], it writes the first line
    of the message and nothing else. *)
Theorem printErrorMessage_lines (w : World) (msg : string) (r : Reporter) :
  printErrorMessage w msg r =
  (Done tt,
   set_stream
     (stream r ++
      List.map (fun l => written w r [color w "error message" "%s"; l])
        (if hideTestingLibraryDOM (options r) &&
            Js.includes msg "Unable to find an element"
         then [hd "" (Js.split_lines msg)]
         else Js.split_lines msg)) r).
Proof. apply printErrorMessage_eq. Qed.

(** X9: a failure that timed out is reported by its title and message
    alone: [writeFailures_test] returns normally, writes a blank line, the
    numbered title, a blank line and the message lines one level deeper,
    and changes nothing else: no diff, no stack line, no file read, and the
    indentation counter is back at its value. *)
Theorem writeFailures_test_timed_out (w : World) (n : nat) (test : Test) (i : nat)
    (r : Reporter) :
  timedOut test = true ->
  let number := if showFailsInBackOrder (options r) then (n - 1 - i)%nat else i in
  let r1 := set_indentation (S (indentation r)) r in
  writeFailures_test w n test i r =
  (Done tt,
   set_stream
     (stream r ++
      [written w r [];
       written w r [color w "fail" "%d) %s"; pretty (number + 1)%nat;
                    Js.join " > " (titlePath test)];
       written w r []] ++
      List.map (fun l => written w r1 [color w "error message" "%s"; l])
        (shownMessageLines (options r) (message (err test)))) r).
Proof.
  intros Htimed number r1. unfold writeFailures_test. rewrite Htimed.
  cbv zeta. unfold bind at 1, gets at 1.
  unfold bind at 1. rewrite writeLine_eq.
  unfold bind at 1. rewrite writeLine_eq.
  unfold bind at 1. rewrite writeLine_eq.
  unfold bind at 1, indentation_incr at 1, modify at 1.
  unfold bind at 1. rewrite printErrorMessage_eq.
  unfold bind, when, ret, indentation_decr, modify. simpl.
  unfold written. simpl.
  destruct r; simpl. by rewrite <- !app_assoc.
Qed.

(** ** Escaping *)

Lemma chars_append (s t : string) : chars (s +:+ t) = chars s ++ chars t.
Proof. induction s as [|c s IH]; simpl; [done|]. by rewrite IH. Qed.

Lemma replaceAll_append (c : ascii) (by_ s t : string) :
  Js.replaceAll c by_ (s +:+ t) = Js.replaceAll c by_ s +:+ Js.replaceAll c by_ t.
Proof.
  assert (Hassoc : forall a b d : string, (a +:+ b) +:+ d = a +:+ (b +:+ d)).
  { induction a as [|e a IH]; intros b d; [done|]. by rewrite !append_cons, IH. }
  induction s as [|d s IH]; simpl; [done|].
  case_bool_decide; rewrite IH; [|done]. by rewrite Hassoc.
Qed.

Lemma chars_replaceAll (c : ascii) (by_ s : string) :
  chars (Js.replaceAll c by_ s) =
  List.concat (List.map (fun d => if bool_decide (d = c) then chars by_ else [d]) (chars s)).
Proof.
  induction s as [|d s IH]; simpl; [done|].
  case_bool_decide; simpl; [rewrite chars_append|]; by rewrite IH.
Qed.

Lemma replaceAll_absent (c : ascii) (by_ s : string) :
  c ∉ chars s -> Js.replaceAll c by_ s = s.
Proof.
  induction s as [|d s IH]; simpl; [done|]. intros Hc.
  apply not_elem_of_cons in Hc as [Hd Hc].
  rewrite bool_decide_eq_false_2 by done. by rewrite IH.
Qed.

Lemma replaceAll_removes (c : ascii) (by_ s : string) :
  c ∉ chars by_ -> c ∉ chars (Js.replaceAll c by_ s).
Proof.
  intros Hby. induction s as [|d s IH]; simpl; [apply not_elem_of_nil|].
  case_bool_decide.
  - rewrite chars_append. by apply not_elem_of_app.
  - simpl. apply not_elem_of_cons. split; [congruence|done].
Qed.

Lemma replaceAll_keeps_absent (c d : ascii) (by_ s : string) :
  d ∉ chars by_ -> d ∉ chars s -> d ∉ chars (Js.replaceAll c by_ s).
Proof.
  intros Hby. induction s as [|e s IH]; simpl; [done|]. intros Hs.
  apply not_elem_of_cons in Hs as [He Hs].
  case_bool_decide.
  - rewrite chars_append. apply not_elem_of_app. auto.
  - simpl. apply not_elem_of_cons. auto.
Qed.

(** X10: an escaped line holds no tab and no carriage return, a line without
    tab, carriage return and line feed is escaped to itself, and escaping
    goes through concatenation. *)
Theorem escapeInvisibles_visible (s t : string) :
  ("009"%char ∉ chars (escapeInvisibles s)) /\
  ("013"%char ∉ chars (escapeInvisibles s)) /\
  ("009"%char ∉ chars s -> "013"%char ∉ chars s -> "010"%char ∉ chars s ->
   escapeInvisibles s = s) /\
  escapeInvisibles (s +:+ t) = escapeInvisibles s +:+ escapeInvisibles t.
Proof.
  assert (Hnot : forall (c : ascii) (u : string),
            bool_decide (c ∈ chars u) = false -> c ∉ chars u).
  { intros c u H. by apply bool_decide_eq_false_1 in H. }
  unfold escapeInvisibles. split_and!.
  - do 2 (apply replaceAll_keeps_absent; [by apply Hnot|]).
    apply replaceAll_removes. by apply Hnot.
  - apply replaceAll_keeps_absent; [by apply Hnot|].
    apply replaceAll_removes. by apply Hnot.
  - intros Ht Hc Hl.
    rewrite (replaceAll_absent "009"%char) by done.
    rewrite (replaceAll_absent "013"%char) by done.
    by apply replaceAll_absent.
  - by rewrite !replaceAll_append.
Qed.

(** ** The frame walk and the call sites *)

(** X11: with [hideNodeModulesStack] off no frame is rendered, and the walk
    still reads the call site of every stack line: it returns normally when
    there is a call site for each of the lines, and throws at the first line
    without one, leaving the reporter unchanged either way. *)
Theorem writeFailures_frames_flag_off_outcome (w : World) (parsedStack : list CallSite)
    (lines : list string) (i : nat) (isFilesBeforeTests isTestFiles : bool) (r : Reporter) :
  hideNodeModulesStack (options r) = false ->
  writeFailures_frames w parsedStack lines i isFilesBeforeTests isTestFiles r =
  (if bool_decide (lines = [] \/ (i + length lines <= length parsedStack)%nat)
   then Done tt
   else Thrown (TypeError "Cannot read property 'getFileName' of undefined"), r).
Proof.
  intros Hoff. revert i. induction lines as [|l lines IH]; intros i.
  - cbn [writeFailures_frames]. rewrite bool_decide_eq_true_2 by by left. done.
  - cbn [writeFailures_frames]. destruct (parsedStack !! i) as [site|] eqn:Esite.
    + unfold bind at 1, gets at 1. rewrite Hoff, IH.
      apply lookup_lt_Some in Esite. f_equal. simpl.
      destruct lines as [|l' lines].
      * rewrite !bool_decide_eq_true_2; [done|right; simpl; lia|by left].
      * erewrite bool_decide_ext; [reflexivity|].
        split; intros [?|?]; try done; right; simpl in *; lia.
    + apply lookup_ge_None_1 in Esite.
      rewrite bool_decide_eq_false_2; [done|]. intros [?|?]; [done|simpl in *; lia].
Qed.

(** ** The diff step *)

Lemma writeDiff_eq (w : World) (actual expected : string) (escape : bool) (r : Reporter) :
  exists out : list string,
    writeDiff w actual expected escape r = (Done tt, set_stream (stream r ++ out) r).
Proof.
  unfold writeDiff. cbv zeta. unfold bind. rewrite !writeLine_eq. simpl.
  rewrite forEach_writeDiff_line. simpl. eexists.
  unfold set_stream. simpl. rewrite <- !app_assoc. reflexivity.
Qed.

(** X12: the diff step never throws and does nothing but write: for all
    values of [actual] and [expected] it returns normally, and the reporter
    differs from the one before by lines appended to the stream only. *)
Theorem writeFailures_diff_only_writes (w : World) (actual expected : Value) (r : Reporter) :
  exists out : list string,
    writeFailures_diff w actual expected r = (Done tt, set_stream (stream r ++ out) r).
Proof.
  assert (Hnone : exists out : list string,
            @ret unit tt r = (Done tt, set_stream (stream r ++ out) r)).
  { exists []. unfold ret. by rewrite set_stream_app_nil. }
  unfold writeFailures_diff.
  destruct (sameType w actual expected && negb (bool_decide (typeof actual = "string"))).
  - case_bool_decide; simpl; [apply Hnone|apply writeDiff_eq].
  - destruct actual, expected; try apply Hnone.
    case_bool_decide; simpl; [apply Hnone|apply writeDiff_eq].
Qed.

(** X13: equal values are never diffed: when [actual] and [expected] are the
    same value, of whatever type, the diff step writes nothing. *)
Theorem writeFailures_diff_same_value (w : World) (v : Value) (r : Reporter) :
  writeFailures_diff w v v r = (Done tt, r).
Proof.
  unfold writeFailures_diff.
  destruct (sameType w v v && negb (bool_decide (typeof v = "string"))).
  - by rewrite bool_decide_eq_true_2.
  - destruct v; try done. by rewrite bool_decide_eq_true_2.
Qed.

(** ** More on the marker scan *)

Lemma linesContainSourceMap_loop_ext (ls1 ls2 : list string) (l : nat) :
  (forall j, (j < l)%nat -> ls1 !!! j = ls2 !!! j) ->
  linesContainSourceMap_loop ls1 l = linesContainSourceMap_loop ls2 l.
Proof.
  induction l as [|l IH]; intros H; [done|].
  rewrite !linesContainSourceMap_loop_step, H by lia.
  rewrite IH; [done|]. intros j Hj. apply H. lia.
Qed.

Lemma linesContainSourceMap_snoc (lines : list string) (x : string) :
  linesContainSourceMap (lines ++ [x]) =
  match markerValue x with
  | Some v => Some v
  | None => linesContainSourceMap lines
  end.
Proof.
  unfold linesContainSourceMap. rewrite length_app, Nat.add_1_r.
  rewrite linesContainSourceMap_loop_step.
  rewrite (list_lookup_total_middle lines [] x (length lines) eq_refl).
  destruct (markerValue x); [done|].
  apply linesContainSourceMap_loop_ext. intros j Hj.
  by rewrite lookup_total_app_l.
Qed.

Lemma markerValue_blank (b : string) : Js.trim b = "" -> markerValue b = None.
Proof. intros Hb. apply markerValue_None. intros u. rewrite Hb. done. Qed.

(** X14: blank lines at the end of a file do not hide its marker. Lines
    that trim to the empty string, appended to a file, do not change the
    result of the scan; so a file whose last non-blank line begins with the
    marker yields the text after the marker, whatever comes before that
    line. *)
Theorem linesContainSourceMap_trailing_blanks (lines blanks : list string) :
  Forall (fun b => Js.trim b = "") blanks ->
  linesContainSourceMap (lines ++ blanks) = linesContainSourceMap lines /\
  (forall (before : list string) (l v : string),
     lines = before ++ [l] -> Js.trim l = sourceMapComment +:+ v ->
     linesContainSourceMap (lines ++ blanks) = Some v).
Proof.
  intros Hblanks.
  assert (Hsame : linesContainSourceMap (lines ++ blanks) = linesContainSourceMap lines).
  { induction blanks as [|b blanks IH] using rev_ind; [by rewrite app_nil_r|].
    apply Forall_app in Hblanks as [Hblanks Hb%Forall_inv].
    rewrite app_assoc, linesContainSourceMap_snoc, markerValue_blank by done. auto. }
  split; [done|]. intros before l v -> Hl.
  rewrite Hsame, linesContainSourceMap_snoc.
  by apply markerValue_Some in Hl as ->.
Qed.

(** ** The stack lines *)

Lemma chars_inj (s t : string) : chars s = chars t -> s = t.
Proof.
  revert t. induction s as [|c s IH]; intros [|d t]; simpl; try done.
  intros [= -> ?]. f_equal. auto.
Qed.

Lemma chars_rev_app (s t : string) : chars (String.rev_app s t) = rev (chars s) ++ chars t.
Proof.
  revert t. induction s as [|c s IH]; intros t; simpl; [done|].
  by rewrite IH, <- app_assoc.
Qed.

Lemma chars_rev (s : string) : chars (String.rev s) = rev (chars s).
Proof. unfold String.rev. by rewrite chars_rev_app, app_nil_r. Qed.

Lemma chars_trimStart (s : string) : chars (Js.trimStart s) = ltrim (chars s).
Proof. induction s as [|c s IH]; simpl; [done|]. by destruct (Ascii.is_space c). Qed.

Lemma chars_trim (s : string) :
  chars (Js.trim s) = rev (ltrim (rev (ltrim (chars s)))).
Proof.
  unfold Js.trim, Js.trimEnd.
  by rewrite chars_rev, chars_trimStart, chars_rev, chars_trimStart.
Qed.

Lemma ltrim_starts_visible (l : list ascii) : starts_visible (ltrim l).
Proof.
  induction l as [|c l IH]; simpl; [done|].
  destruct (Ascii.is_space c) eqn:E; [done|]. simpl. done.
Qed.

Lemma ltrim_visible (l : list ascii) : starts_visible l -> ltrim l = l.
Proof. destruct l as [|c l]; simpl; [done|]. by intros ->. Qed.

Lemma ltrim_snoc (l : list ascii) (c : ascii) :
  Ascii.is_space c = false -> ltrim (l ++ [c]) = ltrim l ++ [c].
Proof.
  intros Hc. induction l as [|d l IH]; simpl; [by rewrite Hc|].
  by destruct (Ascii.is_space d).
Qed.

(** Without its trailing white space, a list that does not begin with white
    space still does not. *)
Lemma rtrim_starts_visible (l : list ascii) :
  starts_visible l -> starts_visible (rev (ltrim (rev l))).
Proof.
  destruct l as [|c l]; simpl; [done|]. intros Hc.
  by rewrite ltrim_snoc, rev_app_distr.
Qed.

Lemma trim_trim (s : string) : Js.trim (Js.trim s) = Js.trim s.
Proof.
  apply chars_inj. rewrite (chars_trim (Js.trim s)), chars_trim.
  set (a := ltrim (chars s)).
  rewrite (ltrim_visible (rev (ltrim (rev a)))).
  - rewrite rev_involutive, (ltrim_visible (ltrim (rev a))); [done|].
    apply ltrim_starts_visible.
  - apply rtrim_starts_visible, ltrim_starts_visible.
Qed.

(** X15: the stack lines that the frame walk goes through are trimmed and
    not empty: trimming one of them again gives the same line. *)
Theorem nonEmptyStackLines_trimmed (e : Err) :
  Forall (fun l => l <> "" /\ Js.trim l = l) (nonEmptyStackLines e).
Proof.
  apply Forall_forall. intros l Hl.
  apply list_elem_of_In, filter_In in Hl as [Hin Hlen].
  apply bool_decide_eq_true_1 in Hlen. split.
  - intros ->. simpl in Hlen. lia.
  - unfold stackLines in Hin. apply in_map_iff in Hin as (x & <- & _).
    apply trim_trim.
Qed.

(** ** The numbers of the failures *)

Lemma keeps_writeFailures_frames (w : World) (parsedStack : list CallSite) (lines : list string) :
  forall (i : nat) (isFilesBeforeTests isTestFiles : bool),
  keeps_settings (writeFailures_frames w parsedStack lines i isFilesBeforeTests isTestFiles).
Proof.
  induction lines as [|l lines IH]; intros i before isTest; simpl.
  - apply keeps_ret.
  - repeat first [apply IH | apply keeps_writeStackLine | keeps_step].
Qed.

Lemma keeps_reportFailure (w : World) (number : nat) (test : Test) :
  keeps_settings (reportFailure w number test).
Proof.
  unfold reportFailure, printErrorMessage, writeFailures_diff, writeDiff, writeDiff_line,
    indentation_incr, indentation_decr. cbv zeta.
  repeat first [apply keeps_writeFailures_frames | keeps_step].
Qed.

Lemma writeFailures_test_number (w : World) (n : nat) (test : Test) (i : nat) (r : Reporter) :
  writeFailures_test w n test i r =
  reportFailure w (if showFailsInBackOrder (options r) then (n - 1 - i)%nat else i) test r.
Proof. reflexivity. Qed.

Lemma writeFailures_each_forward (w : World) (n : nat) (failures : list Test) :
  forall (i : nat) (r : Reporter),
  showFailsInBackOrder (options r) = false ->
  writeFailures_each w n failures i r =
  forEach (fun kt => reportFailure w (fst kt) (snd kt)) (numbered i failures) r.
Proof.
  induction failures as [|test failures IH]; intros i r Hflag; [done|].
  cbn [writeFailures_each numbered forEach]. unfold bind.
  rewrite writeFailures_test_number, Hflag. cbn [fst snd].
  pose proof (keeps_reportFailure w i test r) as [Ho _].
  destruct (reportFailure w i test r) as [[[]|e] r1]; [|done].
  apply IH. simpl in Ho. by rewrite Ho.
Qed.

Lemma writeFailures_each_backward (w : World) (n : nat) (failures : list Test) :
  forall (i : nat) (r : Reporter),
  showFailsInBackOrder (options r) = true ->
  writeFailures_each w n failures i r =
  forEach (fun kt => reportFailure w (fst kt) (snd kt)) (countdown (n - 1 - i) failures) r.
Proof.
  induction failures as [|test failures IH]; intros i r Hflag; [done|].
  cbn [writeFailures_each countdown forEach]. unfold bind.
  rewrite writeFailures_test_number, Hflag. cbn [fst snd].
  pose proof (keeps_reportFailure w (n - 1 - i) test r) as [Ho _].
  destruct (reportFailure w (n - 1 - i) test r) as [[[]|e] r1]; [|done].
  rewrite IH by (simpl in Ho; by rewrite Ho).
  by replace (Nat.pred (n - 1 - i)) with (n - 1 - S i)%nat by lia.
Qed.

Lemma numbered_snoc (failures : list Test) (test : Test) (start : nat) :
  numbered start (failures ++ [test]) =
  numbered start failures ++ [((start + length failures)%nat, test)].
Proof.
  revert start. induction failures as [|t failures IH]; intros start; simpl.
  - by rewrite Nat.add_0_r.
  - rewrite IH. by replace (S start + length failures)%nat
      with (start + S (length failures))%nat by lia.
Qed.

Lemma countdown_rev (failures : list Test) :
  countdown (length failures - 1) (List.rev failures) = List.rev (numbered 0 failures).
Proof.
  induction failures as [|test failures IH] using rev_ind; [done|].
  rewrite numbered_snoc, !rev_unit, length_app. cbn [countdown length].
  replace (length failures + 1 - 1)%nat with (length failures) by lia.
  f_equal. rewrite <- IH. f_equal. lia.
Qed.

(** X16: every failure is reported under the number of its position in the
    list of failures, counted from 1, whatever the order of the report:
    [writeFailures] reports the failures in the order of the list or, with
    [showFailsInBackOrder], in the reverse order, and in both cases the
    failure at position [k] goes with the number [k + 1]. *)
Theorem writeFailures_numbers (w : World) (failures : list Test) (r : Reporter) :
  writeFailures w failures r =
  (writeLine w ["------------------------------------------------------"] ;;
   writeLine w [color w "stat" "Failed tests"] ;;
   indentation_incr ;;
   forEach (fun kt => reportFailure w (fst kt) (snd kt))
     (if showFailsInBackOrder (options r)
      then List.rev (numbered 0 failures)
      else numbered 0 failures) ;;
   indentation_decr)%run r.
Proof.
  unfold writeFailures. unfold bind at 1 6. rewrite writeLine_eq.
  unfold bind at 1 5. rewrite writeLine_eq.
  unfold bind at 1 4, indentation_incr, modify.
  unfold bind at 1, gets at 1. cbn [options set_indentation set_stream].
  set (r1 := set_indentation _ _).
  assert (Ho : options r1 = options r) by done.
  destruct (showFailsInBackOrder (options r)) eqn:Hflag.
  - unfold bind. rewrite writeFailures_each_backward by by rewrite Ho.
    by rewrite length_rev, Nat.sub_0_r, countdown_rev.
  - unfold bind. by rewrite writeFailures_each_forward by by rewrite Ho.
Qed.

(** ** The options of a reporter *)

(** X17: whatever the environment and the reporter options, a new reporter
    shows the source of a frame from the generated file or from the
    original one: at least one of [showSourceMapFiles] and
    [showJavascriptFiles] is on. *)
Theorem newOptions_shows_some_source (env : Env) (reporterOptions : gmap string string) :
  opt_showSourceMapFiles (newOptions env reporterOptions) ||
  opt_showJavascriptFiles (newOptions env reporterOptions) = true.
Proof.
  unfold newOptions. cbv zeta.
  generalize (parseMochaReporterOptions (parseEnvOptions initialOptions env) reporterOptions).
  intros [sm js ? ? ? ? ? ? ? ?]. simpl. by destruct sm, js.
Qed.

(** X18: no environment variable and no reporter option reaches
    [hideNodeModulesStack], [hideTestingLibraryDOM] or [mockConsole]: they
    are on in every new reporter. *)
Theorem newOptions_fixed_flags (env : Env) (reporterOptions : gmap string string) :
  opt_hideNodeModulesStack (newOptions env reporterOptions) = true /\
  opt_hideTestingLibraryDOM (newOptions env reporterOptions) = true /\
  opt_mockConsole (newOptions env reporterOptions) = true.
Proof. unfold newOptions. cbv zeta. by destruct (_ && _). Qed.

(** X19: a reporter option wins over the environment. For the titles, the
    statistics and the screen, the reporter option, when present, decides
    (on only for the value [true]) and the text of [MOCHA_REPORTER_OPTS]
    decides otherwise; the exclusion pattern is the reporter option when
    present, and otherwise the non-empty [MOCHA_REPORTER_STACK_EXCLUDE]. *)
Theorem newOptions_precedence (env : Env) (reporterOptions : gmap string string) :
  let o := newOptions env reporterOptions in
  let v := default "" (MOCHA_REPORTER_OPTS env) in
  let decided (key : string) : bool :=
    match reporterOptions !! key with
    | Some value => bool_decide (value = "true")
    | None => Js.includes v key
    end in
  opt_hideTitles o = decided "hide-titles" /\
  opt_hideStats o = decided "hide-stats" /\
  opt_clearScreen o = decided "clear-screen" /\
  opt_stackExclude o =
    match reporterOptions !! "stack-exclude" with
    | Some value => Some value
    | None => if Js.truthy (MOCHA_REPORTER_STACK_EXCLUDE env)
              then MOCHA_REPORTER_STACK_EXCLUDE env else None
    end.
Proof.
  intros o v decided. subst o v decided. unfold newOptions. cbv zeta.
  assert (Hv : (if Js.truthy (MOCHA_REPORTER_OPTS env)
                then default "" (MOCHA_REPORTER_OPTS env) else "") =
               default "" (MOCHA_REPORTER_OPTS env)).
  { destruct (MOCHA_REPORTER_OPTS env) as [s|]; simpl; [|done].
    case_bool_decide; simpl; [by subst|done]. }
  destruct (_ && _); simpl; rewrite Hv; done.
Qed.

(** X20: no configuration avoids the exception of a call site without a
    file name: in a reporter with the options of any environment and any
    reporter options, the frame walk throws at such a call site and leaves
    the following stack lines unwritten. *)
Theorem writeFailures_frames_null_fileName_any_options (w : World) (env : Env)
    (reporterOptions : gmap string string) (parsedStack : list CallSite)
    (l : string) (lines : list string) (i : nat) (site : CallSite) (r : Reporter) :
  options r = reportOptions (newOptions env reporterOptions) ->
  parsedStack !! i = Some site ->
  getFileName site = None ->
  writeFailures_frames w parsedStack (l :: lines) i true true r =
  (Thrown (TypeError "Cannot read property 'includes' of null"), r).
Proof.
  intros Ho Hsite Hname. cbn [writeFailures_frames]. rewrite Hsite.
  unfold bind, gets. rewrite Ho, Hname.
  cbn [hideNodeModulesStack reportOptions].
  unfold newOptions. cbv zeta. by destruct (_ && _).
Qed.

(** ** The rules of the console *)

Lemma findRule_Some (table : list Rule) (message : string) (start i : nat) :
  findRule table message start = Some i <->
  exists (k : nat) (rule : Rule),
    i = (start + k)%nat /\ table !! k = Some rule /\ rule_test rule message = true /\
    forall (j : nat) (rule' : Rule),
      (j < k)%nat -> table !! j = Some rule' -> rule_test rule' message = false.
Proof.
  revert start. induction table as [|rule table IH]; intros start; simpl.
  - split; [done|]. by intros (k & rule & _ & ? & _).
  - destruct (rule_test rule message) eqn:Etest.
    + split.
      * intros [= <-]. exists 0%nat, rule. split_and!; [lia|done|done|]. intros j ? ?. lia.
      * intros (k & rule' & -> & Hk & Ht & Hfirst).
        destruct k as [|k]; [f_equal; lia|].
        specialize (Hfirst 0%nat rule ltac:(lia) eq_refl). congruence.
    + rewrite IH. split.
      * intros (k & rule' & -> & Hk & Ht & Hfirst).
        exists (S k), rule'. split_and!; [lia|done|done|].
        intros [|j] rule'' Hj Hl; simpl in Hl; [congruence|]. eapply Hfirst; [|done]. lia.
      * intros (k & rule' & -> & Hk & Ht & Hfirst).
        destruct k as [|k]; simpl in Hk; [congruence|].
        exists k, rule'. split_and!; [lia|done|done|].
        intros j rule'' Hj Hl. apply (Hfirst (S j) rule''); [lia|done].
Qed.

(** X21: the first rule wins. [getRuleMatched] answers the position of a
    rule exactly when the expression of that rule matches the message and
    the expression of no rule before it in the table does. *)
Theorem getRuleMatched_first (table : list Rule) (message : string) (i : nat) :
  getRuleMatched table message = Some i <->
  exists rule : Rule,
    table !! i = Some rule /\ rule_test rule message = true /\
    forall (j : nat) (rule' : Rule),
      (j < i)%nat -> table !! j = Some rule' -> rule_test rule' message = false.
Proof.
  unfold getRuleMatched. rewrite findRule_Some. split.
  - intros (k & rule & -> & ?). by exists rule.
  - intros (rule & ?). by exists i, rule.
Qed.

Lemma consoleCall_state (table : list Rule) (mockConsole : bool) (severity : Severity)
    (message : string) (c : Console) (i : nat) (st : RuleState) :
  ruleStates c !! i = Some st ->
  ruleStates (consoleCall table mockConsole severity message c) !! i =
  Some (if bool_decide (getRuleMatched table message = Some i) then bump severity st else st).
Proof.
  intros Hst. unfold consoleCall. cbn [ruleStates].
  destruct (getRuleMatched table message) as [k|]; simpl.
  - case_bool_decide as Hk.
    + injection Hk as ->.
      rewrite !list_lookup_alter, Hst. repeat (case_decide; [|done]).
      simpl. unfold bump.
      by destruct (negb (Js.truthy (rule_color st))).
    + rewrite !list_lookup_alter_ne by congruence. done.
  - done.
Qed.

Lemma consoleCalls_state (table : list Rule) (mockConsole : bool)
    (calls : list (Severity * string)) :
  forall (c : Console) (i : nat) (st : RuleState),
  ruleStates c !! i = Some st ->
  ruleStates (consoleCalls table mockConsole calls c) !! i =
  Some (List.fold_left (fun st call => bump (fst call) st) (callsOfRule table i calls) st).
Proof.
  induction calls as [|[severity message] calls IH]; intros c i st Hst; [done|].
  unfold consoleCalls, callsOfRule in *. cbn [List.fold_left List.filter fst snd].
  rewrite (IH _ i _ (consoleCall_state table mockConsole severity message c i st Hst)).
  by case_bool_decide.
Qed.

Lemma bump_count (sevs : list (Severity * string)) (st : RuleState) :
  rule_count (List.fold_left (fun st call => bump (fst call) st) sevs st) =
  if (length sevs =? 0)%nat then rule_count st
  else Some (default 0%nat (rule_count st) + length sevs)%nat.
Proof.
  revert st. induction sevs as [|call sevs IH]; intros st; [done|].
  cbn [List.fold_left length]. rewrite IH. simpl.
  destruct sevs; simpl; f_equal; lia.
Qed.

Lemma bump_severity_kept (sevs : list (Severity * string)) (st : RuleState) :
  Js.truthy (rule_color st) = true ->
  let st' := List.fold_left (fun st call => bump (fst call) st) sevs st in
  rule_color st' = rule_color st /\ rule_severity st' = rule_severity st.
Proof.
  revert st. induction sevs as [|call sevs IH]; intros st Hc; [done|].
  cbn [List.fold_left]. cbv zeta.
  assert (Hb : rule_color (bump (fst call) st) = rule_color st /\
               rule_severity (bump (fst call) st) = rule_severity st).
  { unfold bump. simpl. by rewrite Hc. }
  destruct Hb as [Hb1 Hb2].
  destruct (IH (bump (fst call) st)) as [-> ->]; [by rewrite Hb1|done].
Qed.

Lemma newConsole_state (table : list Rule) (i : nat) (rule : Rule) :
  table !! i = Some rule -> ruleStates (newConsole table) !! i = Some noRuleState.
Proof. intros H. unfold newConsole. simpl. by rewrite list_lookup_fmap, H. Qed.

(** X22: the count of a rule is the number of console calls that fell to
    it. After any run of calls on a new console, the rule at a position of
    the table has no count when no message fell to it, and otherwise counts
    the messages of which it is the first matching rule, whatever function
    of the console they came through. *)
Theorem consoleCalls_count (table : list Rule) (mockConsole : bool)
    (calls : list (Severity * string)) (i : nat) (rule : Rule) :
  table !! i = Some rule ->
  exists st : RuleState,
    ruleStates (consoleCalls table mockConsole calls (newConsole table)) !! i = Some st /\
    rule_count st =
      (let k := length (callsOfRule table i calls) in
       if (k =? 0)%nat then None else Some k).
Proof.
  intros Hrule. eexists. split.
  - apply consoleCalls_state. by eapply newConsole_state.
  - by rewrite bump_count.
Qed.

(** X23: the severity of a rule is that of the first call that fell to it.
    After any run of calls on a new console, the color and the severity of
    a rule are those of the function of the console through which its first
    message came; later messages of the rule, of any severity, leave them
    as they are. *)
Theorem consoleCalls_first_severity (table : list Rule) (mockConsole : bool)
    (calls : list (Severity * string)) (i : nat) (rule : Rule) :
  table !! i = Some rule ->
  exists st : RuleState,
    ruleStates (consoleCalls table mockConsole calls (newConsole table)) !! i = Some st /\
    match callsOfRule table i calls with
    | [] => rule_color st = None /\ rule_severity st = None
    | (severity, _) :: _ =>
        rule_color st = Some (fst (getSeverityAndColor severity)) /\
        rule_severity st = Some (severityName severity)
    end.
Proof.
  intros Hrule. eexists. split.
  - apply consoleCalls_state. by eapply newConsole_state.
  - destruct (callsOfRule table i calls) as [|[severity message] rest]; [done|].
    cbn [List.fold_left fst].
    destruct (bump_severity_kept rest (bump severity noRuleState)) as [-> ->].
    + by destruct severity.
    + by destruct severity.
Qed.

Lemma consoleCalls_handedOn (table : list Rule) (mockConsole : bool)
    (calls : list (Severity * string)) :
  forall c : Console,
  handedOn (consoleCalls table mockConsole calls c) =
  handedOn c ++
  List.filter (fun call => negb mockConsole || keptByRule table (snd call)) calls.
Proof.
  induction calls as [|[severity message] calls IH]; intros c.
  - simpl. by rewrite app_nil_r.
  - unfold consoleCalls in *. cbn [List.fold_left List.filter fst snd]. rewrite IH.
    unfold consoleCall. cbn [handedOn]. unfold keptByRule at 2.
    destruct mockConsole; simpl; [|by rewrite <- app_assoc].
    destruct (getRuleMatched table message) as [i|]; [|done].
    destruct (from_option rule_keep false (table !! i)); [|done].
    by rewrite <- app_assoc.
Qed.

Lemma startsWith_head (a : ascii) (p m : string) :
  Js.startsWith (String a p) m = true -> exists m', m = String a m'.
Proof.
  unfold Js.startsWith. intros H%bool_decide_eq_true_1. rewrite substr2_0 in H.
  destruct m as [|c m]; simpl in H; [done|]. injection H as -> _. eauto.
Qed.

Lemma startsWith_other_head (a b : ascii) (p m : string) :
  a <> b -> Js.startsWith (String a p) (String b m) = false.
Proof.
  intros Hab. unfold Js.startsWith. apply bool_decide_eq_false_2.
  rewrite substr2_0. simpl. intros [= ? _]. congruence.
Qed.

Lemma keptByRule_rules (message : string) : keptByRule rules message = actWarning message.
Proof.
  unfold keptByRule, getRuleMatched, rules. cbn [findRule startsWithRule rule_test].
  destruct (Js.startsWith "You are using the simple (heuristic) fragment matcher" message)
    eqn:E0.
  { apply startsWith_head in E0 as [m' ->]. unfold actWarning.
    by rewrite startsWith_other_head. }
  destruct (Js.startsWith "Heuristic fragment matching going on" message) eqn:E1.
  { apply startsWith_head in E1 as [m' ->]. unfold actWarning.
    by rewrite startsWith_other_head. }
  destruct (actWarning message); [done|].
  repeat match goal with
         | |- context [if ?b then _ else _] => destruct b; [done|]
         end.
  done.
Qed.

(** X24: with the console mocked, which it is in every new reporter, only
    the act warnings of React reach the original console. After any run of
    calls on a new console, the calls handed on to the original functions
    are, in order, those whose message matches the expression of the act
    warning; every other message, whether a rule matches it or not, is
    swallowed. *)
Theorem consoleCalls_hands_on_act_warnings (calls : list (Severity * string)) :
  handedOn (consoleCalls rules true calls (newConsole rules)) =
  List.filter (fun call => actWarning (snd call)) calls.
Proof.
  rewrite consoleCalls_handedOn. simpl. apply filter_ext.
  intros call. apply keptByRule_rules.
Qed.

(** X25: the rule of Recharts misses the message it is written for. In its
    expression the parentheses around the zeros are groups, so that a
    message that begins with [The width(0) and height(0)] never falls to
    that rule, the last of the table. *)
Theorem getRuleMatched_recharts_parentheses (message : string) :
  Js.startsWith "The width(0) and height(0)" message = true ->
  getRuleMatched rules message <> Some 10%nat.
Proof.
  intros Hm Hrule. unfold Js.startsWith in Hm.
  apply bool_decide_eq_true_1, substr2_prefix in Hm as [u ->].
  apply findRule_Some in Hrule as (k & rule & Hk & Hlookup & Htest & _).
  simpl in Hk. subst k. injection Hlookup as <-.
  vm_compute in Htest. discriminate Htest.
Qed.

Lemma writeSuppressedRule_bumped (w : World) (table : list Rule)
    (calls : list (Severity * string)) (i : nat) (rule : Rule) (r : Reporter) :
  writeSuppressedRule w rule
    (List.fold_left (fun st call => bump (fst call) st) (callsOfRule table i calls) noRuleState) r =
  (Done tt,
   set_stream (stream r ++
     List.map (written w r) (summaryLines w table calls [rule] i)) r).
Proof.
  unfold writeSuppressedRule. cbn [summaryLines]. rewrite bump_count.
  destruct (callsOfRule table i calls) as [|[severity message] others].
  - simpl. unfold ret. by rewrite set_stream_app_nil.
  - cbn [length Nat.eqb negb noRuleState rule_count default List.fold_left fst].
    destruct (bump_severity_kept others (bump severity noRuleState)) as [-> ->];
      [by destruct severity|].
    cbn [bump noRuleState rule_color rule_severity Js.truthy negb].
    rewrite Nat.add_0_l. cbn [Nat.eqb negb].
    rewrite writeLine_eq. simpl. by destruct severity.
Qed.

Lemma forEach_writeSuppressedRule (w : World) (table : list Rule)
    (calls : list (Severity * string)) (table' : list Rule) :
  forall (i : nat) (states : list RuleState) (r : Reporter),
  (forall (j : nat) (rule : Rule), table' !! j = Some rule ->
     states !! j =
     Some (List.fold_left (fun st call => bump (fst call) st)
             (callsOfRule table (i + j) calls) noRuleState)) ->
  forEach (fun rs => writeSuppressedRule w (fst rs) (snd rs)) (zip table' states) r =
  (Done tt,
   set_stream (stream r ++
     List.map (written w r) (summaryLines w table calls table' i)) r).
Proof.
  induction table' as [|rule rest IH]; intros i states r Hstates.
  - simpl. unfold ret. by rewrite set_stream_app_nil.
  - pose proof (Hstates 0%nat rule eq_refl) as H0. rewrite Nat.add_0_r in H0.
    destruct states as [|st states]; [done|]. injection H0 as ->.
    cbn [zip zip_with forEach fst snd]. unfold bind.
    rewrite writeSuppressedRule_bumped.
    rewrite (IH (S i) states).
    + cbn [summaryLines]. rewrite app_nil_r.
      unfold written, set_stream. simpl. by rewrite List.map_app, <- app_assoc.
    + intros j rule' Hj. replace (S i + j)%nat with (i + S j)%nat by lia.
      exact (Hstates (S j) rule' Hj).
Qed.

(** X26: after any run of console calls on a new console, the summary of
    the console returns and lists, between its two header lines and the
    line of the total, one line for each rule that a call fell to, in the
    order of the table and one level deeper: the severity of the first such
    call in its color, the group of the rule and the number of these calls.
    A rule without a group is listed like the others, under the name
    [null]. The reporter is otherwise unchanged. *)
Theorem writeSuppressedConsoleMessages_lines (w : World) (table : list Rule)
    (mockConsole : bool) (calls : list (Severity * string)) (total : nat) (r : Reporter) :
  let states := ruleStates (consoleCalls table mockConsole calls (newConsole table)) in
  let r1 := set_indentation (S (indentation r)) r in
  writeSuppressedConsoleMessages w table states total r =
  (Done tt,
   set_stream
     (stream r ++
      [written w r ["------------------------------------------------------"];
       written w r [color w "stat" "Suppressed console messages"]] ++
      List.map (written w r1) (summaryLines w table calls table 0) ++
      [written w r1 ["TOTAL Messages Suppressed (" +:+ pretty total +:+ ")"]]) r).
Proof.
  intros states r1. unfold writeSuppressedConsoleMessages.
  unfold bind at 1. rewrite writeLine_eq.
  unfold bind at 1. rewrite writeLine_eq.
  unfold bind at 1, indentation_incr at 1, modify at 1.
  unfold bind at 1.
  rewrite (forEach_writeSuppressedRule w table calls table 0 states).
  - unfold bind, indentation_decr, modify. rewrite writeLine_eq. simpl.
    unfold written. simpl. destruct r; simpl. f_equal. f_equal.
    by rewrite <- !app_assoc.
  - intros j rule Hj. apply consoleCalls_state. by eapply newConsole_state.
Qed.

(** ** The further properties on concrete inputs *)

(** A cached file through a report. *)
Lemma writeFailures_keeps_cached_files_witness :
  let w := Example.world Example.fs1 Example.frames1 in
  let r := ExampleCache.cached Example.defaults "/p/a.js" ["x"] ∅ in
  let failures := [ExampleThrow.failure "first" Example.stack1] in
  filesCache r !! "/p/a.js" = Some ["x"] /\
  filesCache (snd (writeFailures w failures r)) !! "/p/a.js" = Some ["x"].
Proof.
  intros w r failures.
  assert (H : filesCache r !! "/p/a.js" = Some ["x"]) by (vm_compute; reflexivity).
  split; [exact H|].
  exact (writeFailures_keeps_cached_files w failures r "/p/a.js" ["x"] H).
Defined.

(** A cached file with an external map. *)
Lemma writeStackLine_cached_file_not_read_witness :
  let w := ExampleCache.w_none in
  let r := ExampleCache.cached ExampleMap.opts "/p/c.js" ExampleCache.lines_external ∅ in
  filesCache r !! "/p/c.js" = Some ExampleCache.lines_external /\
  filesCache (snd (writeStackLine w "at f (/p/c.js:1:1)" "/p/c.js" (Some 1) (Some 1) r)) =
  filesCache r.
Proof.
  intros w r.
  assert (H : filesCache r !! "/p/c.js" = Some ExampleCache.lines_external)
    by (vm_compute; reflexivity).
  split; [exact H|].
  exact (proj1 (writeStackLine_cached_file_not_read w "at f (/p/c.js:1:1)" "/p/c.js"
                  (Some 1) (Some 1) r ExampleCache.lines_external H)).
Defined.

(** A cached file whose map is remembered as missing. *)
Lemma writeStackLine_cached_null_reused_witness :
  let w := ExampleCache.w_none in
  let r := ExampleCache.cached ExampleMap.opts "/p/c.js" ExampleCache.lines_external
             {[ "/p/c.js" := None ]} in
  filesCache r !! "/p/c.js" = Some ExampleCache.lines_external /\
  sourceMapCache r !! "/p/c.js" = Some None /\
  reads (snd (writeStackLine w "at f (/p/c.js:1:1)" "/p/c.js" (Some 1) (Some 1) r)) = reads r.
Proof.
  intros w r.
  assert (H1 : filesCache r !! "/p/c.js" = Some ExampleCache.lines_external)
    by (vm_compute; reflexivity).
  assert (H2 : sourceMapCache r !! "/p/c.js" = Some None) by (vm_compute; reflexivity).
  split_and!; [exact H1|exact H2|].
  exact (proj1 (writeStackLine_cached_null_reused w "at f (/p/c.js:1:1)" "/p/c.js"
                  (Some 1) (Some 1) r ExampleCache.lines_external H1 H2)).
Defined.

(** An external map that cannot be read. *)
Lemma writeStackLine_external_map_failure_witness :
  let w := ExampleCache.w_none in
  let r := ExampleCache.cached ExampleMap.opts "/p/c.js" ExampleCache.lines_external ∅ in
  filesCache r !! "/p/c.js" = Some ExampleCache.lines_external /\
  linesContainSourceMap ExampleCache.lines_external = Some "c.js.map" /\
  readFileSync w (externalMapPath w "/p/c.js" "c.js.map") = None /\
  exists r',
    writeStackLine w "at f (/p/c.js:1:1)" "/p/c.js" (Some 1) (Some 1) r = (Done tt, r') /\
    sourceMapCache r' = <["/p/c.js" := None]> (sourceMapCache r) /\
    reads r' = reads r ++ [externalMapPath w "/p/c.js" "c.js.map"] /\
    stream r' = stream r ++ [written w r [color w "error stack" "at f (/p/c.js:1:1)"]] /\
    filesCache r' = filesCache r.
Proof.
  intros w r.
  assert (H1 : filesCache r !! "/p/c.js" = Some ExampleCache.lines_external)
    by (vm_compute; reflexivity).
  assert (H2 : linesContainSourceMap ExampleCache.lines_external = Some "c.js.map")
    by reflexivity.
  assert (H3 : "c.js.map" <> "") by discriminate.
  assert (H4 : Js.substr2 "c.js.map" 0 5 <> "data:") by (vm_compute; discriminate).
  assert (H5 : showSourceMapFiles (options r) = true) by reflexivity.
  assert (H6 : showJavascriptFiles (options r) = false) by reflexivity.
  assert (H7 : sourceMapCache r !! "/p/c.js" <> Some None) by (vm_compute; discriminate).
  assert (H8 : readFileSync w (externalMapPath w "/p/c.js" "c.js.map") = None)
    by reflexivity.
  split_and!; [exact H1|exact H2|exact H8|].
  exact (writeStackLine_external_map_failure w "at f (/p/c.js:1:1)" "/p/c.js" 1 (Some 1) r
           ExampleCache.lines_external "c.js.map" H1 H2 H3 H4 H5 H6 H7 (or_introl H8)).
Defined.

(** An inline map that the consumer rejects. *)
Lemma writeStackLine_inline_map_failure_throws_witness :
  let w := ExampleCache.w_reject in
  let sm := "data:application/json;base64,e30=" in
  let r := ExampleCache.cached ExampleMap.opts "/p/b.js" ExampleCache.lines_inline ∅ in
  filesCache r !! "/p/b.js" = Some ExampleCache.lines_inline /\
  linesContainSourceMap ExampleCache.lines_inline = Some sm /\
  dataUriToBuffer w sm = Some sm /\ newSourceMapConsumer w sm = None /\
  exists e r',
    writeStackLine w "at f (/p/b.js:1:1)" "/p/b.js" (Some 1) (Some 1) r = (Thrown e, r') /\
    (e = LibraryError "data-uri-to-buffer" \/ e = LibraryError "source-map") /\
    stream r' = stream r ++ [written w r [color w "error stack" "at f (/p/b.js:1:1)"]] /\
    sourceMapCache r' = sourceMapCache r /\
    filesCache r' = filesCache r.
Proof.
  intros w sm r.
  assert (H1 : filesCache r !! "/p/b.js" = Some ExampleCache.lines_inline)
    by (vm_compute; reflexivity).
  assert (H2 : linesContainSourceMap ExampleCache.lines_inline = Some sm) by reflexivity.
  assert (H3 : Js.substr2 sm 0 5 = "data:") by reflexivity.
  assert (H4 : showSourceMapFiles (options r) = true) by reflexivity.
  assert (H5 : showJavascriptFiles (options r) = false) by reflexivity.
  assert (H6 : sourceMapCache r !! "/p/b.js" <> Some None) by (vm_compute; discriminate).
  assert (H7 : dataUriToBuffer w sm = Some sm) by reflexivity.
  assert (H8 : newSourceMapConsumer w sm = None) by reflexivity.
  split_and!; [exact H1|exact H2|exact H7|exact H8|].
  exact (writeStackLine_inline_map_failure_throws w "at f (/p/b.js:1:1)" "/p/b.js" 1 (Some 1)
           r ExampleCache.lines_inline sm H1 H2 H3 H4 H5 H6
           (or_intror (ex_intro _ sm (conj H7 H8)))).
Defined.

(** The report of one failure that timed out. *)
Lemma writeFailures_restores_indentation_witness :
  let w := ExampleCache.w_none in
  let r := Example.reporter Example.defaults [] in
  let run := writeFailures w [ExampleCache.timedOutFailure] r in
  run = (Done tt, snd run) /\ indentation (snd run) = indentation r.
Proof.
  intros w r run.
  assert (H : run = (Done tt, snd run)) by (vm_compute; reflexivity).
  split; [exact H|].
  exact (writeFailures_restores_indentation w [ExampleCache.timedOutFailure] r (snd run) H).
Defined.

Lemma writeFailures_test_timed_out_witness :
  let w := ExampleCache.w_none in
  let r := Example.reporter Example.defaults [] in
  timedOut ExampleCache.timedOutFailure = true /\
  writeFailures_test w 1 ExampleCache.timedOutFailure 0 r =
  (Done tt,
   set_stream [Js.LF; "1) suite > slow" +:+ Js.LF; Js.LF;
               " timeout of 2000ms exceeded" +:+ Js.LF] r).
Proof.
  intros w r.
  assert (H : timedOut ExampleCache.timedOutFailure = true) by reflexivity.
  split; [exact H|].
  exact (writeFailures_test_timed_out w 1 ExampleCache.timedOutFailure 0 r H).
Defined.

Lemma escapeInvisibles_visible_witness :
  ("009"%char ∉ chars "a+b") /\ ("013"%char ∉ chars "a+b") /\
  ("010"%char ∉ chars "a+b") /\
  escapeInvisibles "a+b" = "a+b".
Proof.
  assert (Habsent : forall c : ascii,
            c <> "a"%char -> c <> "+"%char -> c <> "b"%char -> c ∉ chars "a+b").
  { intros c Ha Hp Hb. simpl. rewrite !elem_of_cons, elem_of_nil. tauto. }
  assert (H1 : "009"%char ∉ chars "a+b") by (apply Habsent; discriminate).
  assert (H2 : "013"%char ∉ chars "a+b") by (apply Habsent; discriminate).
  assert (H3 : "010"%char ∉ chars "a+b") by (apply Habsent; discriminate).
  split_and!; [exact H1|exact H2|exact H3|].
  destruct (escapeInvisibles_visible "a+b" "") as (_ & _ & Hid & _).
  exact (Hid H1 H2 H3).
Defined.

Lemma writeFailures_frames_flag_off_outcome_witness :
  let w := ExampleCache.w_none in
  let r := Example.reporter ExampleCache.flagOff [] in
  hideNodeModulesStack (options r) = false /\
  writeFailures_frames w [Example.site "/p/a.js" 2 7] ["at f"; "at g"] 0 true true r =
  (Thrown (TypeError "Cannot read property 'getFileName' of undefined"), r).
Proof.
  intros w r.
  assert (H : hideNodeModulesStack (options r) = false) by reflexivity.
  split; [exact H|].
  exact (writeFailures_frames_flag_off_outcome w [Example.site "/p/a.js" 2 7]
           ["at f"; "at g"] 0 true true r H).
Defined.

Lemma linesContainSourceMap_trailing_blanks_witness :
  let lines := ["var a;"; "//# sourceMappingURL=x.map"] in
  let blanks := [""; "  "] in
  Forall (fun b => Js.trim b = "") blanks /\
  linesContainSourceMap (lines ++ blanks) = Some "x.map".
Proof.
  intros lines blanks.
  assert (H : Forall (fun b => Js.trim b = "") blanks) by (repeat constructor).
  split; [exact H|].
  exact (proj2 (linesContainSourceMap_trailing_blanks lines blanks H)
           ["var a;"] "//# sourceMappingURL=x.map" "x.map" eq_refl eq_refl).
Defined.

Lemma writeFailures_frames_null_fileName_any_options_witness :
  let w := ExampleCache.w_none in
  let r := Example.reporter (reportOptions (newOptions ExampleCache.noEnv ∅)) [] in
  options r = reportOptions (newOptions ExampleCache.noEnv ∅) /\
  [ExampleThrow.anonymous] !! 0%nat = Some ExampleThrow.anonymous /\
  getFileName ExampleThrow.anonymous = None /\
  writeFailures_frames w [ExampleThrow.anonymous] ["at Array.forEach (<anonymous>)"; "at f"]
    0 true true r =
  (Thrown (TypeError "Cannot read property 'includes' of null"), r).
Proof.
  intros w r.
  assert (H1 : options r = reportOptions (newOptions ExampleCache.noEnv ∅)) by reflexivity.
  assert (H2 : [ExampleThrow.anonymous] !! 0%nat = Some ExampleThrow.anonymous) by reflexivity.
  assert (H3 : getFileName ExampleThrow.anonymous = None) by reflexivity.
  split_and!; [exact H1|exact H2|exact H3|].
  exact (writeFailures_frames_null_fileName_any_options w ExampleCache.noEnv ∅
           [ExampleThrow.anonymous] "at Array.forEach (<anonymous>)" ["at f"] 0
           ExampleThrow.anonymous r H1 H2 H3).
Defined.

Lemma consoleCalls_count_witness :
  let calls := [(WARN, ExampleCache.actMessage); (INFO, "hello");
                (ERROR, ExampleCache.actMessage)] in
  rules !! 2%nat = Some ExampleCache.actRule /\
  exists st : RuleState,
    ruleStates (consoleCalls rules true calls (newConsole rules)) !! 2%nat = Some st /\
    rule_count st =
      (let k := length (callsOfRule rules 2 calls) in
       if (k =? 0)%nat then None else Some k).
Proof.
  intros calls.
  assert (H : rules !! 2%nat = Some ExampleCache.actRule) by reflexivity.
  split; [exact H|].
  exact (consoleCalls_count rules true calls 2 ExampleCache.actRule H).
Defined.

Lemma consoleCalls_first_severity_witness :
  let calls := [(WARN, ExampleCache.actMessage); (ERROR, ExampleCache.actMessage)] in
  rules !! 2%nat = Some ExampleCache.actRule /\
  exists st : RuleState,
    ruleStates (consoleCalls rules true calls (newConsole rules)) !! 2%nat = Some st /\
    match callsOfRule rules 2 calls with
    | [] => rule_color st = None /\ rule_severity st = None
    | (severity, _) :: _ =>
        rule_color st = Some (fst (getSeverityAndColor severity)) /\
        rule_severity st = Some (severityName severity)
    end.
Proof.
  intros calls.
  assert (H : rules !! 2%nat = Some ExampleCache.actRule) by reflexivity.
  split; [exact H|].
  exact (consoleCalls_first_severity rules true calls 2 ExampleCache.actRule H).
Defined.

Lemma getRuleMatched_recharts_parentheses_witness :
  let message := "The width(0) and height(0) of chart should be greater than 0" in
  Js.startsWith "The width(0) and height(0)" message = true /\
  getRuleMatched rules message <> Some 10%nat.
Proof.
  intros message.
  assert (H : Js.startsWith "The width(0) and height(0)" message = true) by reflexivity.
  split; [exact H|].
  exact (getRuleMatched_recharts_parentheses message H).
Defined.

(** ** Exceptions of the frame walk, in general *)

(** X27: when the stack lines outnumber the call sites, the frame walk does
    not return normally, whatever the options, the files and the state of
    the reporter: it throws, at the first stack line without a call site if
    not before. *)
Theorem writeFailures_frames_short_stack (w : World) (parsedStack : list CallSite)
    (lines : list string) (i : nat) (isFilesBeforeTests isTestFiles : bool) (r : Reporter) :
  lines <> [] ->
  (length parsedStack < i + length lines)%nat ->
  exists (e : Exn) (r' : Reporter),
    writeFailures_frames w parsedStack lines i isFilesBeforeTests isTestFiles r =
    (Thrown e, r').
Proof.
  revert i isFilesBeforeTests isTestFiles r.
  induction lines as [|l lines IH]; intros i before isTest r Hne Hlen; [done|].
  cbn [writeFailures_frames].
  destruct (parsedStack !! i) as [site|] eqn:Esite; [|by eexists _, _].
  apply lookup_lt_Some in Esite.
  assert (Hnext : forall before' isTest' r1, exists e r',
            writeFailures_frames w parsedStack lines (S i) before' isTest' r1 = (Thrown e, r')).
  { intros before' isTest' r1. apply IH.
    - intros ->. simpl in Hlen. lia.
    - simpl in Hlen. lia. }
  unfold bind at 1, gets at 1.
  destruct (hideNodeModulesStack (options r)); [|apply Hnext].
  destruct (getFileName site) as [fileName|]; [|by eexists _, _].
  destruct (negb (Js.includes fileName "node_modules")); [|apply Hnext].
  unfold bind at 1, gets at 1.
  destruct (if bool_decide (fileName ∈ files r) then (true, false) else (false, before))
    as [isTest' before'].
  unfold bind.
  destruct (when _ _ r) as [[[]|e] r1]; [apply Hnext|by eexists _, _].
Qed.

Lemma writeFailures_frames_short_stack_witness :
  let w := ExampleCache.w_none in
  let r := Example.reporter Example.defaults [] in
  ["at f"; "at g"] <> [] /\
  (length [Example.site "/p/a.js" 2 7] < 0 + length ["at f"; "at g"])%nat /\
  exists (e : Exn) (r' : Reporter),
    writeFailures_frames w [Example.site "/p/a.js" 2 7] ["at f"; "at g"] 0 true true r =
    (Thrown e, r').
Proof.
  intros w r.
  assert (H1 : ["at f"; "at g"] <> []) by discriminate.
  assert (H2 : (length [Example.site "/p/a.js" 2 7] < 0 + length ["at f"; "at g"])%nat)
    by (simpl; lia).
  split_and!; [exact H1|exact H2|].
  exact (writeFailures_frames_short_stack w [Example.site "/p/a.js" 2 7] ["at f"; "at g"]
           0 true true r H1 H2).
Defined.

(** X28: a position without a renderable line stops [writeStackLine]. For a
    cached file without a marker, when none of the line of the position,
    the line before it and the line after it is a non-empty line of the
    file (a position past the end of the file, for one), the call throws a
    [TypeError] after the stack line and one separator line have been
    written, and changes nothing else. *)
Theorem writeStackLine_no_renderable_line (w : World) (l fileName : string)
    (lineNumber : Z) (columnNumber : option Z) (r : Reporter) (lines : list string) :
  filesCache r !! fileName = Some lines ->
  linesContainSourceMap lines = None ->
  snippetRows lines lineNumber = [] ->
  let r1 := set_stream (stream r ++ [written w r [color w "error stack" l]]) r in
  writeStackLine w l fileName (Some lineNumber) columnNumber r =
  (Thrown (TypeError "Reduce of empty array with no initial value"),
   set_stream (stream r ++ [written w r [color w "error stack" l]; written w r []]) r).
Proof.
  intros Hcache Hsm Hrows r1.
  destruct (writeStackLine_cached_prefix w l fileName lineNumber columnNumber r lines Hcache)
    as (rest & -> & ->).
  cbv zeta. unfold bind at 1, gets at 1. rewrite Hsm.
  cbn [Js.truthy negb]. rewrite orb_true_r. cbn [when].
  unfold bind at 1. rewrite _writeStackFilePosition_empty by done.
  unfold set_stream, written. simpl. by rewrite <- app_assoc.
Qed.

Lemma writeStackLine_no_renderable_line_witness :
  let w := ExampleCache.w_none in
  let r := ExampleCache.cached Example.defaults "/p/a.js" ["var a;"; "a();"] ∅ in
  filesCache r !! "/p/a.js" = Some ["var a;"; "a();"] /\
  linesContainSourceMap ["var a;"; "a();"] = None /\
  snippetRows ["var a;"; "a();"] 99 = [] /\
  writeStackLine w "at f (/p/a.js:99:1)" "/p/a.js" (Some 99) (Some 1) r =
  (Thrown (TypeError "Reduce of empty array with no initial value"),
   set_stream ["at f (/p/a.js:99:1)" +:+ Js.LF; Js.LF] r).
Proof.
  intros w r.
  assert (H1 : filesCache r !! "/p/a.js" = Some ["var a;"; "a();"])
    by (vm_compute; reflexivity).
  assert (H2 : linesContainSourceMap ["var a;"; "a();"] = None) by reflexivity.
  assert (H3 : snippetRows ["var a;"; "a();"] 99 = []) by reflexivity.
  split_and!; [exact H1|exact H2|exact H3|].
  exact (writeStackLine_no_renderable_line w "at f (/p/a.js:99:1)" "/p/a.js" 99 (Some 1) r
           ["var a;"; "a();"] H1 H2 H3).
Defined.
